(** * Utility-accounts dashboard: payment form, mock payment endpoint, account listing

    A shallow embedding of the TypeScript sources of the dashboard

    - [app/utils/formatters.ts]        (the three live-typing formatters),
    - [app/utils/validationSchema.ts]  (the client-side [paymentSchema]),
    - [app/api/processPayment/route.ts] (the [POST] handler and its schema),
    - [app/api/getAccounts/route.ts]   (the hard-coded [accounts] and [GET]),
    - [app/page.tsx]                   ([getFilteredAccounts]),

    followed by the properties of these functions.

    Conventions.  A JavaScript string is a Rocq [string], a sequence of
    8-bit units where JavaScript has 16-bit ones.  The character classes
    of the sources ([\d], [\D], [/], [.]) are decided unit by unit and
    put every unit outside ASCII in the same class (not a digit, not a
    separator), so neither the formatters nor the schema checks depend
    on the width of the units.  JavaScript numbers that the sources use
    as integers only (indices, month and year numbers, time values in
    milliseconds, account balances) are [Z]; [NaN] is [None]. *)

From Stdlib Require Import ZArith List String Ascii Bool Lia.
From stdpp Require Import base option list gmap strings.

Local Open Scope string_scope.
Local Open Scope list_scope.
Local Open Scope Z_scope.

(** ** JavaScript built-ins used by the sources *)

Module JsString.

(** The regular-expression class [\d]. *)
Definition isDigit (c : ascii) : bool :=
  match c with
  | "0" | "1" | "2" | "3" | "4" | "5" | "6" | "7" | "8" | "9" => true
  | _ => false
  end%char.

(** Line terminators, the characters [.] does not match (LF and CR;
    U+2028 and U+2029 are not single units of a byte string). *)
Definition isLineTerminator (c : ascii) : bool :=
  match c with
  | "010" | "013" => true
  | _ => false
  end%char.

(** [s.replace(/\D/g, "")] *)
Fixpoint replaceNonDigits (s : string) : string :=
  match s with
  | EmptyString => EmptyString
  | String c s' =>
      if isDigit c then String c (replaceNonDigits s') else replaceNonDigits s'
  end.

Fixpoint take (n : nat) (s : string) : string :=
  match n, s with
  | S n', String c s' => String c (take n' s')
  | _, _ => EmptyString
  end.

Fixpoint drop (n : nat) (s : string) : string :=
  match n, s with
  | S n', String _ s' => drop n' s'
  | _, _ => s
  end.

(** [s.slice(start, end)]; [end_ = None] is the call with one argument.
    Negative indices count from the end, and both are clamped to the
    string. *)
Definition slice (s : string) (start : Z) (end_ : option Z) : string :=
  let len := Z.of_nat (String.length s) in
  let clamp i := if i <? 0 then Z.max (len + i) 0 else Z.min i len in
  let from := clamp start in
  let to := clamp (default len end_) in
  take (Z.to_nat (Z.max (to - from) 0)) (drop (Z.to_nat from) s).

Definition flush (acc : string) : list string :=
  match acc with
  | EmptyString => []
  | _ => [acc]
  end.

(** The successive matches of [/.{1,4}/g]: [acc] is the match in
    progress (fewer than four characters); a line terminator ends it
    and is skipped. *)
Fixpoint scanDot1to4 (acc s : string) : list string :=
  match s with
  | EmptyString => flush acc
  | String c s' =>
      if isLineTerminator c then (flush acc ++ scanDot1to4 EmptyString s')%list
      else
        let acc' := acc +:+ String c EmptyString in
        if (String.length acc' =? 4)%nat
        then acc' :: scanDot1to4 EmptyString s'
        else scanDot1to4 acc' s'
  end.

(** [s.match(/.{1,4}/g)]: the array of all matches, or [null] ([None])
    when there is none. *)
Definition matchDot1to4 (s : string) : option (list string) :=
  match scanDot1to4 EmptyString s with
  | [] => None
  | parts => Some parts
  end.

(** [parts.join(sep)] *)
Definition join (sep : string) (parts : list string) : string :=
  String.concat sep parts.

End JsString.

(** ** [app/utils/formatters.ts] *)

Module Formatters.
Import JsString.

Definition formatCardNumber (value : string) : string :=
  let numericValue := slice (replaceNonDigits value) 0 (Some 16) in
  let parts := default [] (matchDot1to4 numericValue) in
  join " " parts.

Definition formatExpiryDate (value : string) : string :=
  let cleaned := slice (replaceNonDigits value) 0 (Some 4) in
  if (2 <=? Z.of_nat (String.length cleaned))
  then slice cleaned 0 (Some 2) +:+ "/" +:+ slice cleaned 2 None
  else cleaned.

Definition formatCVV (value : string) : string :=
  slice (replaceNonDigits value) 0 (Some 4).

End Formatters.

(** ** Numbers and dates *)

Module JsNumber.
Import JsString.

(** White space and line terminators that [parseInt] skips (the ASCII
    ones; the others are not single units of a byte string and can
    only occur in values the format check of the schema refuses). *)
Definition isWhiteSpace (c : ascii) : bool :=
  match c with
  | "009" | "010" | "011" | "012" | "013" | " " => true
  | _ => false
  end%char.

Fixpoint trimStart (s : string) : string :=
  match s with
  | String c s' => if isWhiteSpace c then trimStart s' else s
  | EmptyString => s
  end.

(** The value of a character as a digit of radix 16 (or 10), from its
    code: ["0"] to ["9"], then the letters [a] to [f] in either case. *)
Definition digitValue (c : ascii) : option Z :=
  let code := Z.of_N (N_of_ascii c) in
  if (48 <=? code) && (code <=? 57) then Some (code - 48)
  else if (97 <=? code) && (code <=? 102) then Some (code - 87)
  else if (65 <=? code) && (code <=? 70) then Some (code - 55)
  else None.

(** Reads the longest prefix of radix-[r] digits of [s]; [acc] is the
    value read so far, [None] while no digit has been read. *)
Fixpoint readDigits (r : Z) (acc : option Z) (s : string) : option Z :=
  match s with
  | String c s' =>
      match digitValue c with
      | Some d =>
          if d <? r then readDigits r (Some (default 0 acc * r + d)) s' else acc
      | None => acc
      end
  | EmptyString => acc
  end.

(** [parseInt(s)] with no radix argument; [None] is [NaN].  The value
    is exact, where JavaScript rounds above 2^53: such values are far
    beyond every valid date and above 12 in magnitude. *)
Definition parseInt (s : string) : option Z :=
  let s1 := trimStart s in
  let '(sign, s2) :=
    match s1 with
    | String "-"%char rest => (-1, rest)
    | String "+"%char rest => (1, rest)
    | _ => (1, s1)
    end in
  let '(radix, s3) :=
    match s2 with
    | String "0"%char (String "x"%char rest)
    | String "0"%char (String "X"%char rest) => (16, rest)
    | _ => (10, s2)
    end in
  (fun n => sign * n) <$> readDigits radix None s3.

(** [parseInt(x)] where [x] may be [undefined]: the argument is first
    converted to the string ["undefined"]. *)
Definition parseIntOf (x : option string) : option Z :=
  parseInt (default "undefined" x).

End JsNumber.

Module JsDate.

Definition msPerDay : Z := 86400000.

(** Largest magnitude of a time value (TimeClip). *)
Definition maxTime : Z := 8640000000000000.

Definition DayFromYear (y : Z) : Z :=
  365 * (y - 1970) + (y - 1969) / 4 - (y - 1901) / 100 + (y - 1601) / 400.

Definition InLeapYear (y : Z) : bool :=
  if negb (y mod 4 =? 0) then false
  else if negb (y mod 100 =? 0) then true
  else (y mod 400 =? 0).

(** Day within the year of the first day of month [mn] (0 to 11). *)
Definition DayWithinYear (leap : bool) (mn : Z) : Z :=
  let l := if leap then 1 else 0 in
  match mn with
  | 0 => 0 | 1 => 31 | 2 => 59 + l | 3 => 90 + l | 4 => 120 + l
  | 5 => 151 + l | 6 => 181 + l | 7 => 212 + l | 8 => 243 + l
  | 9 => 273 + l | 10 => 304 + l | _ => 334 + l
  end.

(** [MakeDay(year, month, date)]: months outside 0..11 carry into the
    year. *)
Definition MakeDay (year month date : Z) : Z :=
  let ym := year + month / 12 in
  let mn := month mod 12 in
  DayFromYear ym + DayWithinYear (InLeapYear ym) mn + date - 1.

(** [MakeDate(day, time)] *)
Definition MakeDate (day time : Z) : Z := day * msPerDay + time.

Definition TimeClip (t : Z) : option Z :=
  if Z.abs t <=? maxTime then Some t else None.

Section LocalTime.
(** Offset of local time from UTC in milliseconds, taken constant
    (no daylight-saving changes). *)
Variable LocalTZA : Z.

Definition UTC (t : Z) : Z := t - LocalTZA.

(** [new Date(year, monthIndex)]: the time value of local midnight on
    the first day of that month, [None] for an invalid date.  Years 0
    to 99 mean 1900 to 1999. *)
Definition newDate (year monthIndex : option Z) : option Z :=
  match year, monthIndex with
  | Some y, Some m =>
      let yr := if (0 <=? y) && (y <=? 99) then 1900 + y else y in
      TimeClip (UTC (MakeDate (MakeDay yr m 1) 0))
  | _, _ => None
  end.
End LocalTime.

(** [a > b] on two dates: compares the time values, false when [a] is
    invalid.  [b] is a valid date. *)
Definition gt (a : option Z) (b : Z) : bool :=
  match a with
  | Some ta => b <? ta
  | None => false
  end.

End JsDate.

(** ** The parts of the [zod] schema library the sources use *)

Module Zod.

(** Parsed JSON values, as [request.json()] yields them.  A number is
    kept as the decimal [mantissa * 10 ^ exponent] it was written as;
    an object maps its keys to values. *)
#[warnings="-register-all"] Inductive JsonValue : Type :=
  | JNull
  | JBool (b : bool)
  | JNumber (mantissa exponent : Z)
  | JString (s : string)
  | JArray (items : list JsonValue)
  | JObject (props : gmap string JsonValue).

Inductive ZodIssue : Type :=
  | invalid_type (expected received : string) (path : list string) (message : string)
  | invalid_enum_value (received : string) (options : list string)
      (path : list string) (message : string)
  | too_small (minimum : Z) (path : list string) (message : string)
  | invalid_string (path : list string) (message : string)
  | custom (path : list string) (message : string).

Definition path (i : ZodIssue) : list string :=
  match i with
  | invalid_type _ _ p _ | invalid_enum_value _ _ p _
  | too_small _ p _ | invalid_string p _ | custom p _ => p
  end.

Definition message (i : ZodIssue) : string :=
  match i with
  | invalid_type _ _ _ m | invalid_enum_value _ _ _ m
  | too_small _ _ m | invalid_string _ m | custom _ m => m
  end.

(** *** String schemas with checks and a refinement (client side) *)

Inductive StringCheck : Type :=
  | check_min (value : Z) (message : string)
  | check_regex (test : string -> bool) (message : string).

Record ZodString := { checks : list StringCheck }.

Definition z_string : ZodString := {| checks := [] |}.

Definition min (value : Z) (message : string) (s : ZodString) : ZodString :=
  {| checks := (checks s ++ [check_min value message])%list |}.

Definition regex (test : string -> bool) (message : string) (s : ZodString) : ZodString :=
  {| checks := (checks s ++ [check_regex test message])%list |}.

Record ZodEffects := {
  schema : ZodString;
  refinement : string -> bool;
  refinementMessage : string
}.

Definition refine (check : string -> bool) (message : string) (s : ZodString) : ZodEffects :=
  {| schema := s; refinement := check; refinementMessage := message |}.

Definition runCheck (p : list string) (data : string) (c : StringCheck) : list ZodIssue :=
  match c with
  | check_min value message =>
      if Z.of_nat (String.length data) <? value then [too_small value p message] else []
  | check_regex test message =>
      if test data then [] else [invalid_string p message]
  end.

(** Issues a string schema raises on a string: every check runs, in
    order, whether or not an earlier one failed. *)
Definition stringIssues (s : ZodString) (p : list string) (data : string) : list ZodIssue :=
  flat_map (runCheck p data) (checks s).

(** The refinement runs after the checks, also when one of them
    failed. *)
Definition effectsIssues (e : ZodEffects) (p : list string) (data : string) : list ZodIssue :=
  (stringIssues (schema e) p data
   ++ (if refinement e data then [] else [custom p (refinementMessage e)]))%list.

(** [schema.safeParse(data).success] *)
Definition stringAccepts (s : ZodString) (data : string) : bool :=
  match stringIssues s [] data with
  | [] => true
  | _ => false
  end.

Definition effectsAccepts (e : ZodEffects) (data : string) : bool :=
  match effectsIssues e [] data with
  | [] => true
  | _ => false
  end.

(** *** Object schemas over JSON (server side) *)

Inductive ZodType : Type :=
  | ZString (s : ZodString)
  | ZEnum (values : list string).

Definition ZodObject := list (string * ZodType).

(** [getParsedType]; [None] is [undefined], a missing property. *)
Definition getParsedType (data : option JsonValue) : string :=
  match data with
  | None => "undefined"
  | Some JNull => "null"
  | Some (JBool _) => "boolean"
  | Some (JNumber _ _) => "number"
  | Some (JString _) => "string"
  | Some (JArray _) => "array"
  | Some (JObject _) => "object"
  end.

(** Message of the default error map for a type mismatch. *)
Definition invalidTypeMessage (expected received : string) : string :=
  if String.eqb received "undefined" then "Required"
  else "Expected " +:+ expected +:+ ", received " +:+ received.

Definition invalidType (expected : string) (data : option JsonValue) (p : list string) : ZodIssue :=
  invalid_type expected (getParsedType data) p
    (invalidTypeMessage expected (getParsedType data)).

(** [util.joinValues] on strings. *)
Definition joinValues (values : list string) : string :=
  JsString.join " | " (map (fun v => "'" +:+ v +:+ "'") values).

Definition inValues (values : list string) (s : string) : bool :=
  existsb (String.eqb s) values.

(** Parse of one property: the issues, or the validated string. *)
Definition parseType (t : ZodType) (p : list string) (data : option JsonValue)
  : list ZodIssue + string :=
  match t with
  | ZString s =>
      match data with
      | Some (JString v) =>
          match stringIssues s p v with
          | [] => inr v
          | issues => inl issues
          end
      | _ => inl [invalidType "string" data p]
      end
  | ZEnum values =>
      match data with
      | Some (JString v) =>
          if inValues values v then inr v
          else inl [invalid_enum_value v values p
                      ("Invalid enum value. Expected " +:+ joinValues values
                       +:+ ", received '" +:+ v +:+ "'")]
      | _ => inl [invalidType (joinValues values) data p]
      end
  end.

(** Properties of the shape in order: all issues are collected, and
    the validated properties; properties outside the shape are
    dropped. *)
Fixpoint parseShape (shape : ZodObject) (props : gmap string JsonValue)
  : list ZodIssue * gmap string string :=
  match shape with
  | [] => ([], ∅)
  | (key, t) :: rest =>
      let '(issues, out) := parseShape rest props in
      match parseType t [key] (props !! key) with
      | inl here => ((here ++ issues)%list, out)
      | inr v => (issues, <[key := v]> out)
      end
  end.

(** [schema.parse(data)]: the validated object, or the issues of the
    [ZodError] it throws. *)
Definition parse (shape : ZodObject) (data : JsonValue) : list ZodIssue + gmap string string :=
  match data with
  | JObject props =>
      match parseShape shape props with
      | ([], out) => inr out
      | (issues, _) => inl issues
      end
  | _ => inl [invalidType "object" (Some data) []]
  end.

(** The issues one property of the shape raises, and the keys of a
    shape. *)
Definition fieldIssues (props : gmap string JsonValue) (entry : string * ZodType)
  : list ZodIssue :=
  match parseType (snd entry) [fst entry] (props !! fst entry) with
  | inl here => here
  | inr _ => []
  end.

Definition keys (shape : ZodObject) : list string := map fst shape.

End Zod.

(** ** [app/utils/validationSchema.ts] *)

Module ValidationSchema.
Import JsString JsNumber JsDate Zod.

Fixpoint allDigits (s : string) : bool :=
  match s with
  | EmptyString => true
  | String c s' => isDigit c && allDigits s'
  end.

(** [/^\d{2}\/\d{2}$/.test(s)] *)
Definition isMMYY (s : string) : bool :=
  match s with
  | String a (String b (String "/"%char (String c (String d EmptyString)))) =>
      isDigit a && isDigit b && isDigit c && isDigit d
  | _ => false
  end.

(** [/^\d{3,4}$/.test(s)] *)
Definition is3or4Digits (s : string) : bool :=
  allDigits s && ((String.length s =? 3)%nat || (String.length s =? 4)%nat).

(** [s.split(sep)] for a one-character separator. *)
Fixpoint split (sep : ascii) (s : string) : list string :=
  match s with
  | EmptyString => [EmptyString]
  | String c s' =>
      if Ascii.eqb c sep then EmptyString :: split sep s'
      else
        match split sep s' with
        | first :: others => String c first :: others
        | [] => [String c EmptyString]
        end
  end.

Definition leNumber (a : option Z) (b : Z) : bool :=
  match a with
  | Some x => x <=? b
  | None => false
  end.

Section Clock.
(** The offset of local time, and the time value of [new Date()]. *)
Variables (LocalTZA now : Z).

(** The refinement of [expiryDate]. *)
Definition expiryInFuture (val : string) : bool :=
  let parts := split "/" val in
  let month := parts !! 0%nat in
  let year := parts !! 1%nat in
  let expiry :=
    newDate LocalTZA ((fun y => 2000 + y) <$> parseIntOf year)
                     ((fun m => m - 1) <$> parseIntOf month) in
  gt expiry now && leNumber (parseIntOf month) 12.

Definition expiryDate : ZodEffects :=
  refine expiryInFuture "Invalid expiry date"
    (regex isMMYY "Use MM/YY format"
      (min 1 "Expiry date is required" z_string)).
End Clock.

Definition cvv : ZodString :=
  regex is3or4Digits "CVV must be 3 or 4 digits"
    (min 1 "CVV is required" z_string).

(** The checksum behind the [cardNumber] rule ([luhnCheck] of the
    [payment] package): from the last digit backwards every second
    digit is doubled, 9 is taken off a result above 9, and the sum
    must be a multiple of 10.  A character that is not a digit makes
    the sum [NaN]. *)
Fixpoint luhnSum (odd : bool) (digits : list ascii) : option Z :=
  match digits with
  | [] => Some 0
  | c :: rest =>
      d ← (if isDigit c then digitValue c else None);
      let odd' := negb odd in
      let d1 := if odd' then d * 2 else d in
      let d2 := if 9 <? d1 then d1 - 9 else d1 in
      s ← luhnSum odd' rest;
      Some (d2 + s)
  end.

Definition luhnCheck (num : string) : bool :=
  match luhnSum true (rev (list_ascii_of_string num)) with
  | Some sum => sum mod 10 =? 0
  | None => false
  end.

End ValidationSchema.

(** ** Route handlers *)

Module Next.

(** [NextResponse.json(body, { status })]; the status is 200 when none
    is given. *)
Record NextResponse (B : Type) := { status : Z; body : B }.
Arguments status {B} _.
Arguments body {B} _.

Definition NextResponse_json {B : Type} (b : B) (init : option Z) : NextResponse B :=
  {| status := default 200 init; body := b |}.

(** Errors of the runtime, as opposed to those of the schema. *)
Inductive JsError : Type :=
  | SyntaxError (message : string)
  | TypeError (message : string).

(** What [await request.json()] does with the request: it throws when
    the body is not well-formed JSON (or cannot be read), and yields
    the parsed value otherwise. *)
Record Request := { json : JsError + Zod.JsonValue }.

End Next.

(** *** [app/api/processPayment/route.ts] *)

Module ProcessPayment.
Import JsString Zod Next.

Definition paymentRequestSchema : ZodObject :=
  [ ("amount", ZString z_string);
    ("cardNumber", ZString z_string);
    ("expiryDate", ZString z_string);
    ("cvv", ZString z_string);
    ("accountId", ZString z_string);
    ("accountType", ZEnum ["ELECTRICITY"; "GAS"]) ].

(** What a [catch] clause can receive. *)
Inductive Thrown : Type :=
  | ZodError (errors : list ZodIssue)
  | Runtime (e : JsError).

Inductive ConsoleEntry : Type :=
  | console_log (text : string) (data : option (gmap string string))
  | console_error (text : string) (error : Thrown).

(** The JSON body of a response of this route; [errors = None] is a
    body without that property. *)
Record PaymentResponse := {
  success : bool;
  message : string;
  errors : option (list ZodIssue)
}.

(** The [try] block: the console output, and the response returned or
    the error thrown. *)
Definition tryBlock (request : Request) : list ConsoleEntry * (Thrown + NextResponse PaymentResponse) :=
  let out := [console_log "Processing payment..." None] in
  match json request with
  | inl e => (out, inl (Runtime e))
  | inr body =>
      match parse paymentRequestSchema body with
      | inl issues => (out, inl (ZodError issues))
      | inr validatedData =>
          match validatedData !! "cardNumber" with
          | None =>
              (out, inl (Runtime (TypeError "Cannot read properties of undefined (reading 'slice')")))
          | Some cardNumber =>
              let shown :=
                <["cvv" := "***"]>
                  (<["cardNumber" := "****" +:+ slice cardNumber (-4) None]> validatedData) in
              ((out ++ [console_log "Payment data validated:" (Some shown)])%list,
               inr (NextResponse_json
                      {| success := true;
                         message := "Payment processed successfully";
                         errors := None |} None))
          end
      end
  end.

Definition POST_io (request : Request) : list ConsoleEntry * NextResponse PaymentResponse :=
  match tryBlock request with
  | (out, inr response) => (out, response)
  | (out, inl error) =>
      let out := (out ++ [console_error "Payment processing error:" error])%list in
      match error with
      | ZodError issues =>
          (out, NextResponse_json
                  {| success := false;
                     message := "Invalid payment data";
                     errors := Some issues |} (Some 400))
      | _ =>
          (out, NextResponse_json
                  {| success := false;
                     message := "Payment processing failed";
                     errors := None |} (Some 500))
      end
  end.

(** The response of [POST]. *)
Definition POST (request : Request) : NextResponse PaymentResponse :=
  snd (POST_io request).

(** *** Vocabulary for the responses *)

(** The request whose body parses to the JSON object [props]. *)
Definition requestOf (props : gmap string JsonValue) : Request :=
  {| json := inr (JObject props) |}.

Definition ok200 : NextResponse PaymentResponse :=
  {| status := 200;
     body := {| success := true;
                message := "Payment processed successfully";
                errors := None |} |}.

Definition failed500 : NextResponse PaymentResponse :=
  {| status := 500;
     body := {| success := false;
                message := "Payment processing failed";
                errors := None |} |}.

Definition invalid400 (issues : list ZodIssue) : NextResponse PaymentResponse :=
  {| status := 400;
     body := {| success := false;
                message := "Invalid payment data";
                errors := Some issues |} |}.

(** A body with the given amount and otherwise plausible values. *)
Definition bodyWithAmount (amount : string) : gmap string JsonValue :=
  <["amount" := JString amount]>
    (<["cardNumber" := JString "4242424242424242"]>
       (<["expiryDate" := JString "12/30"]>
          (<["cvv" := JString "123"]>
             (<["accountId" := JString "A-0001"]>
                (<["accountType" := JString "GAS"]> ∅))))).

Definition stringFields : list string :=
  ["amount"; "cardNumber"; "expiryDate"; "cvv"; "accountId"].


(** The property [field] of the body is present and a string. *)
Definition isStringField (props : gmap string JsonValue) (field : string) : Prop :=
  exists v, props !! field = Some (JString v).

(** The six properties are present with the types of the schema. *)
Definition wellTyped (props : gmap string JsonValue) : Prop :=
  isStringField props "amount" /\ isStringField props "cardNumber"
  /\ isStringField props "expiryDate" /\ isStringField props "cvv"
  /\ isStringField props "accountId"
  /\ (props !! "accountType" = Some (JString "ELECTRICITY")
      \/ props !! "accountType" = Some (JString "GAS")).

End ProcessPayment.

(** *** [app/api/getAccounts/route.ts] *)

Inductive UtilityType : Type := ELECTRICITY | GAS.

Module GetAccounts.
Import Next.

(** Balances are JavaScript numbers; the ones of this file are
    integers. *)
Record EnergyAccount := {
  id : string;
  type : UtilityType;
  balance : Z;
  address : string
}.

Definition accounts : list EnergyAccount :=
  [ {| id := "A-0001"; type := ELECTRICITY; balance := 30;
       address := "1 Greville Ct, Thomastown, 3076, Victoria" |};
    {| id := "A-0002"; type := GAS; balance := 0;
       address := "74 Taltarni Rd, Yawong Hills, 3478, Victoria" |};
    {| id := "A-0003"; type := ELECTRICITY; balance := -40;
       address := "44 William Road, Cresswell Downs, 0862, Northern Territory" |};
    {| id := "A-0004"; type := ELECTRICITY; balance := 50;
       address := "87 Carolina Park Road, Forresters Beach, 2260, New South Wales" |};
    {| id := "A-0005"; type := GAS; balance := 25;
       address := "12 Sunset Blvd, Redcliffe, 4020, Queensland" |};
    {| id := "A-0006"; type := ELECTRICITY; balance := -15;
       address := "3 Ocean View Dr, Torquay, 3228, Victoria" |};
    {| id := "A-0007"; type := GAS; balance := 0;
       address := "150 Greenway Cres, Mawson Lakes, 5095, South Australia" |};
    {| id := "A-0008"; type := ELECTRICITY; balance := 120;
       address := "88 Harbour St, Sydney, 2000, New South Wales" |};
    {| id := "A-0009"; type := GAS; balance := -60;
       address := "22 Boulder Rd, Kalgoorlie, 6430, Western Australia" |} ].

(** The module-level array is the only state of the route.  [GET]
    declares no parameter: the request the framework passes (its URL
    and query string, [url] here) is never read.  The handler waits
    one second and answers with the array; the wait is not modelled. *)
Definition GET (url : string) (store : list EnergyAccount)
  : list EnergyAccount * NextResponse (list EnergyAccount) :=
  (store, NextResponse_json store None).

(** Successive invocations, threading the store. *)
Fixpoint serve (urls : list string) (store : list EnergyAccount)
  : list EnergyAccount * list (NextResponse (list EnergyAccount)) :=
  match urls with
  | [] => (store, [])
  | url :: rest =>
      let '(store1, response) := GET url store in
      let '(store2, responses) := serve rest store1 in
      (store2, response :: responses)
  end.

End GetAccounts.

(** *** [app/page.tsx] *)

Module Page.

Inductive AccountType : Type :=
  | Only (t : UtilityType)
  | ALL.

Record Account := {
  id : string;
  type : UtilityType;
  address : string;
  balance : Z
}.

Definition UtilityType_eqb (a b : UtilityType) : bool :=
  match a, b with
  | ELECTRICITY, ELECTRICITY | GAS, GAS => true
  | _, _ => false
  end.

(** [account.type === selectedType] *)
Definition strictEq (t : UtilityType) (selectedType : AccountType) : bool :=
  match selectedType with
  | Only u => UtilityType_eqb t u
  | ALL => false
  end.

(** [getFilteredAccounts], a closure over the component state
    [accounts] and [selectedType]. *)
Definition getFilteredAccounts (accounts : list Account) (selectedType : AccountType)
  : list Account :=
  List.filter
    (fun account =>
       match selectedType with
       | ALL => true
       | _ => strictEq (type account) selectedType
       end)
    accounts.

End Page.

(** ** The formatters as the specification words them

    Written over lists of characters with the list library, to be
    compared with the functions of [Formatters]. *)

Module FormatterSpec.
Import JsString.

(** Strip non-digits. *)
Definition digitsOf (x : string) : list ascii :=
  List.filter isDigit (list_ascii_of_string x).

(** Chunks of four, the last one shorter when the digits run out. *)
Fixpoint group4 (l : list ascii) : list (list ascii) :=
  match l with
  | a :: b :: c :: d :: rest => [a; b; c; d] :: group4 rest
  | [] => []
  | short => [short]
  end.

(** Chunks of four: none is empty, all but the last have four
    elements, the last at most four. *)
Inductive chunksOf4 : list (list ascii) -> Prop :=
  | chunks_none : chunksOf4 []
  | chunks_last p : (1 <= length p <= 4)%nat -> chunksOf4 [p]
  | chunks_more p q rest :
      length p = 4%nat -> chunksOf4 (q :: rest) -> chunksOf4 (p :: q :: rest).

(** The chunks with one separator between neighbours. *)
Fixpoint separatedBy (sep : list ascii) (parts : list (list ascii)) : list ascii :=
  match parts with
  | [] => []
  | [p] => p
  | p :: rest => p ++ sep ++ separatedBy sep rest
  end.

Definition formatCardNumber (x : string) : string :=
  string_of_list_ascii (separatedBy [" "%char] (group4 (firstn 16 (digitsOf x)))).

Definition formatExpiryDate (x : string) : string :=
  let d := firstn 4 (digitsOf x) in
  string_of_list_ascii
    (if (2 <=? length d)%nat then firstn 2 d ++ "/"%char :: skipn 2 d else d).

Definition formatCVV (x : string) : string :=
  string_of_list_ascii (firstn 4 (digitsOf x)).

End FormatterSpec.

(** ** Calendar vocabulary for the expiry rule

    Months and years as the specification speaks of them, in terms of
    the date model above. *)

Module Calendar.
Import JsDate.

Section LocalTime.
Variable LocalTZA : Z.

(** Time value of local midnight on the first day of month [m]
    (1 to 12; 13 is January of the next year) of year [y]. *)
Definition monthStart (y m : Z) : Z :=
  UTC LocalTZA (MakeDate (MakeDay y (m - 1) 1) 0).

Definition yearStart (y : Z) : Z := monthStart y 1.

(** [now] falls in month [m] of year [y]. *)
Definition inMonth (now y m : Z) : Prop :=
  monthStart y m <= now < monthStart y (m + 1).

(** The whole month [m] of year [y] lies before [now]. *)
Definition monthIsPast (now y m : Z) : Prop :=
  monthStart y (m + 1) <= now.

(** The year [y] has not begun at [now]. *)
Definition yearIsFuture (now y : Z) : Prop :=
  now < yearStart y.
End LocalTime.

Definition digitChar (d : Z) : ascii :=
  match d with
  | 0 => "0" | 1 => "1" | 2 => "2" | 3 => "3" | 4 => "4"
  | 5 => "5" | 6 => "6" | 7 => "7" | 8 => "8" | _ => "9"
  end%char.

(** A number from 0 to 99 written with two digits. *)
Definition twoDigits (n : Z) : string :=
  String (digitChar (n / 10)) (String (digitChar (n mod 10)) EmptyString).

(** Month [m] of year [2000 + yy] written MM/YY. *)
Definition mmyy (m yy : Z) : string :=
  twoDigits m +:+ "/" +:+ twoDigits yy.

End Calendar.

(** ** More of the sources: amounts *)

Module JsFloat.
Import JsString JsNumber.

(** The longest prefix of digits of a string, and what follows it. *)
Fixpoint spanDigits (s : string) : string * string :=
  match s with
  | String c s' =>
      if isDigit c
      then let '(d, r) := spanDigits s' in (String c d, r)
      else (EmptyString, s)
  | EmptyString => (EmptyString, EmptyString)
  end.

(** The string begins with a digit. *)
Definition headIsDigit (s : string) : bool :=
  match s with
  | String c _ => isDigit c
  | EmptyString => false
  end.

(** The number a string of decimal digits denotes (0 for no digit). *)
Definition decimalValue (d : string) : Z := default 0 (readDigits 10 None d).

(** What [parseFloat] yields: [NaN], an infinity, or a decimal
    [mantissa * 10 ^ exponent] with its sign, kept exact. *)
Inductive Number : Type :=
  | NaN
  | Infinity (negative : bool)
  | Decimal (negative : bool) (mantissa exponent : Z).

Definition signOf (s : string) : bool * string :=
  match s with
  | String "-"%char rest => (true, rest)
  | String "+"%char rest => (false, rest)
  | _ => (false, s)
  end.

(** The value of an exponent part ([e] or [E], an optional sign, at
    least one digit) at the head of [s]; 0 when there is none. *)
Definition exponentPart (s : string) : Z :=
  match s with
  | String c rest =>
      if Ascii.eqb c "e" || Ascii.eqb c "E"
      then
        let '(negative, r) := signOf rest in
        match fst (spanDigits r) with
        | EmptyString => 0
        | d => if negative then - decimalValue d else decimalValue d
        end
      else 0
  | EmptyString => 0
  end.

(** [parseFloat(s)]: white space is skipped, then the longest prefix
    that is a decimal literal is read: a sign, then [Infinity] or digits
    with an optional fraction and an optional exponent part; a fraction
    alone needs a digit. *)
Definition parseFloat (s : string) : Number :=
  let '(negative, s2) := signOf (trimStart s) in
  if String.prefix "Infinity" s2 then Infinity negative
  else
    let '(whole, r1) := spanDigits s2 in
    let '(fraction, r2) :=
      match r1 with
      | String "."%char r => spanDigits r
      | _ => (EmptyString, r1)
      end in
    match whole, fraction with
    | EmptyString, EmptyString => NaN
    | _, _ =>
        Decimal negative (decimalValue (whole +:+ fraction))
                (exponentPart r2 - Z.of_nat (String.length fraction))
    end.

(** [x > 0] for the double nearest to [x].  A positive decimal rounds
    to a positive double (or to infinity) unless it is at most 2^-1075,
    half the least positive double, which rounds to 0. *)
Definition isPositive (x : Number) : bool :=
  match x with
  | NaN => false
  | Infinity negative => negb negative
  | Decimal negative m e =>
      negb negative
      && (if 0 <=? e then 0 <? m else 10 ^ (- e) <? m * 2 ^ 1075)
  end.

End JsFloat.

(** *** [app/utils/validationSchema.ts]: the [amount] rule *)

Module AmountRule.
Import JsString JsFloat Zod.

(** [/^\d+(\.\d{1,2})?$/.test(s)] *)
Definition isAmount (s : string) : bool :=
  let '(whole, rest) := spanDigits s in
  negb (String.eqb whole EmptyString)
  && match rest with
     | EmptyString => true
     | String "."%char fraction =>
         ValidationSchema.allDigits fraction
         && ((String.length fraction =? 1)%nat || (String.length fraction =? 2)%nat)
     | _ => false
     end.

(** Some digit of [s] is not a zero. *)
Fixpoint hasNonZeroDigit (s : string) : bool :=
  match s with
  | EmptyString => false
  | String c s' => (isDigit c && negb (Ascii.eqb c "0")) || hasNonZeroDigit s'
  end.

Definition amount : ZodEffects :=
  refine (fun val => isPositive (parseFloat val)) "Amount must be greater than 0"
    (regex isAmount "Amount must be a number with up to 2 decimal places"
      (min 1 "Amount is required" z_string)).

End AmountRule.

(** ** More of the sources: the payment overlay, [app/components/Payment.tsx] *)

Module PaymentForm.
Import JsString Zod Next.

(** [value.replace(/[^\d.]/g, "")] *)
Fixpoint keepDigitsAndDots (s : string) : string :=
  match s with
  | EmptyString => EmptyString
  | String c s' =>
      if isDigit c || Ascii.eqb c "."
      then String c (keepDigitsAndDots s')
      else keepDigitsAndDots s'
  end.

(** [parts[i]] inside a template or a concatenation: a missing element
    reads ["undefined"]. *)
Definition part (parts : list string) (i : nat) : string :=
  default "undefined" (parts !! i).

(** [handleAmountChange]: the value it sets for the field [amount],
    from the value of the input. *)
Definition handleAmountChange (value : string) : string :=
  let sanitized := keepDigitsAndDots value in
  let parts := ValidationSchema.split "." sanitized in
  if (length parts =? 1)%nat then sanitized
  else if (length parts =? 2)%nat then
    let whole := part parts 0 in
    let decimal := slice (part parts 1) 0 (Some 2) in
    whole +:+ "." +:+ decimal
  else part parts 0 +:+ "." +:+ slice (join "" (skipn 1 parts)) 0 (Some 2).

(** The values of the form, by field name; a field is absent until it
    is set ([useForm] is given no default values). *)
Definition setValue (field value : string) (form : gmap string string) : gmap string string :=
  <[field := value]> form.

Inductive ChangeEvent : Type :=
  | amountChange (value : string)
  | cardNumberChange (value : string)
  | expiryDateChange (value : string)
  | CVVChange (value : string).

(** The four [onChange] handlers. *)
Definition handleChange (e : ChangeEvent) (form : gmap string string) : gmap string string :=
  match e with
  | amountChange value => setValue "amount" (handleAmountChange value) form
  | cardNumberChange value => setValue "cardNumber" (Formatters.formatCardNumber value) form
  | expiryDateChange value => setValue "expiryDate" (Formatters.formatExpiryDate value) form
  | CVVChange value => setValue "cvv" (Formatters.formatCVV value) form
  end.

(** The form after a sequence of input events, from the empty form. *)
Definition typed (events : list ChangeEvent) : gmap string string :=
  fold_left (fun form e => handleChange e form) events ∅.

(** Each value the form holds is one its handler would set again
    unchanged, and it holds no other field than the four. *)
Definition formatted (form : gmap string string) : Prop :=
  (forall v, form !! "amount" = Some v -> handleAmountChange v = v)
  /\ (forall v, form !! "cardNumber" = Some v -> Formatters.formatCardNumber v = v)
  /\ (forall v, form !! "expiryDate" = Some v -> Formatters.formatExpiryDate v = v)
  /\ (forall v, form !! "cvv" = Some v -> Formatters.formatCVV v = v)
  /\ (forall field, ~ In field ["amount"; "cardNumber"; "expiryDate"; "cvv"] ->
        form !! field = None).

(** *** Submission *)

Record PaymentFormData := {
  amount : string;
  cardNumber : string;
  expiryDate : string;
  cvv : string
}.

Definition UtilityType_name (t : UtilityType) : string :=
  match t with
  | ELECTRICITY => "ELECTRICITY"
  | GAS => "GAS"
  end.

(** The object [{ ...data, accountId, accountType }], as it comes out
    of [JSON.stringify] and the server's [request.json()]. *)
Definition submittedBody (data : PaymentFormData) (accountId : string) (accountType : UtilityType)
  : gmap string JsonValue :=
  <["accountType" := JString (UtilityType_name accountType)]>
    (<["accountId" := JString accountId]>
       (<["cvv" := JString (cvv data)]>
          (<["expiryDate" := JString (expiryDate data)]>
             (<["cardNumber" := JString (cardNumber data)]>
                (<["amount" := JString (amount data)]> ∅))))).

(** What [fetch] and [response.json()] come to: the call is rejected
    (no network), or a response arrives whose body is not JSON, or a
    response of the route arrives. *)
Inductive FetchOutcome : Type :=
  | rejected (e : JsError)
  | unreadable (status : Z) (e : JsError)
  | responded (response : NextResponse ProcessPayment.PaymentResponse).

Definition errorMessage (e : JsError) : string :=
  match e with
  | SyntaxError m | TypeError m => m
  end.

(** [response.ok] *)
Definition ok (status : Z) : bool := (200 <=? status) && (status <=? 299).

(** What the handler does to the component and the page, in order. *)
Inductive Effect : Type :=
  | setIsProcessing (value : bool)
  | setPaymentError (value : option string)
  | toast_loading (text toastId : string)
  | toast_dismiss (toastId : string)
  | toast_success (text : string)
  | toast_error (text : string)
  | onClose.

(** The [try] block after the call of [fetch]: the effects, or the
    message of the error thrown. *)
Definition afterFetch (outcome : FetchOutcome) : string + list Effect :=
  match outcome with
  | rejected e => inl (errorMessage e)
  | unreadable _ e => inl (errorMessage e)
  | responded response =>
      if negb (ok (status response))
      then
        let m := ProcessPayment.message (body response) in
        inl (if String.eqb m "" then "Payment failed" else m)
      else
        inr [ toast_dismiss "payment-processing";
              toast_success "Payment successful! 🎉";
              onClose ]
  end.

(** [handlePaymentSubmit]; [server] stands for the network and the
    route behind [fetch("/api/processPayment")]. *)
Definition handlePaymentSubmit (server : Request -> FetchOutcome)
  (accountId : string) (accountType : UtilityType) (data : PaymentFormData) : list Effect :=
  [ setIsProcessing true; setPaymentError None;
    toast_loading "Processing payment..." "payment-processing" ]
  ++ match afterFetch (server (ProcessPayment.requestOf (submittedBody data accountId accountType))) with
     | inr effects => effects
     | inl errorMessage =>
         [ setPaymentError (Some errorMessage);
           toast_dismiss "payment-processing";
           toast_error errorMessage ]
     end
  ++ [ setIsProcessing false ].

Definition isDismiss (e : Effect) : bool :=
  match e with
  | toast_dismiss _ => true
  | _ => false
  end.

(** The route itself behind a working network. *)
Definition route (request : Request) : FetchOutcome :=
  responded (ProcessPayment.POST request).

(** The component state ([isProcessing], [paymentError]) and whether
    the overlay was closed, after a list of effects. *)
Record Overlay := {
  isProcessing : bool;
  paymentError : option string;
  closed : bool
}.

Definition apply (o : Overlay) (e : Effect) : Overlay :=
  match e with
  | setIsProcessing v =>
      {| isProcessing := v; paymentError := paymentError o; closed := closed o |}
  | setPaymentError v =>
      {| isProcessing := isProcessing o; paymentError := v; closed := closed o |}
  | onClose =>
      {| isProcessing := isProcessing o; paymentError := paymentError o; closed := true |}
  | _ => o
  end.

Definition run (effects : list Effect) (o : Overlay) : Overlay :=
  fold_left apply effects o.

End PaymentForm.

(** ** More of the sources: the dashboard, [app/page.tsx] *)

Module Home.
Import Page.

Record State := {
  selectedAccount : option Account;
  accounts : list Account;
  selectedType : AccountType;
  loading : bool
}.

Definition initial : State :=
  {| selectedAccount := None; accounts := []; selectedType := ALL; loading := true |}.

Definition handleOpenPayment (account : Account) (s : State) : State :=
  {| selectedAccount := Some account; accounts := accounts s;
     selectedType := selectedType s; loading := loading s |}.

Definition handleClosePayment (s : State) : State :=
  {| selectedAccount := None; accounts := accounts s;
     selectedType := selectedType s; loading := loading s |}.

Definition handleTypeFilter (t : AccountType) (s : State) : State :=
  {| selectedAccount := selectedAccount s; accounts := accounts s;
     selectedType := t; loading := loading s |}.

(** [fetchAccounts] once the request has settled: [Some data] when the
    list arrived, [None] when the request or the reading of its body
    failed; in both cases the loading flag is lowered. *)
Definition fetchAccounts (result : option (list Account)) (s : State) : State :=
  {| selectedAccount := selectedAccount s;
     accounts := match result with Some data => data | None => accounts s end;
     selectedType := selectedType s;
     loading := false |}.



(** The cards on the screen: none while loading. *)
Definition cards (s : State) : list Account :=
  if loading s then [] else getFilteredAccounts (accounts s) (selectedType s).

(** What can happen to the page: the request sent on mount settles,
    while the page is loading; a filter button is pressed; the button
    of a card on the screen is pressed; the overlay, when shown, is
    closed. *)
Inductive step : State -> State -> Prop :=
  | step_fetch s result : loading s = true -> step s (fetchAccounts result s)
  | step_filter s t : step s (handleTypeFilter t s)
  | step_open s account : In account (cards s) -> step s (handleOpenPayment account s)
  | step_close s : selectedAccount s <> None -> step s (handleClosePayment s).

Inductive reachable : State -> Prop :=
  | reachable_initial : reachable initial
  | reachable_step s s' : reachable s -> step s s' -> reachable s'.

End Home.

(** * Properties *)

(** ** Strings as lists of characters *)

Module StringFacts.
Import JsString.

Abbreviation chars := list_ascii_of_string.
Abbreviation str := string_of_list_ascii.

Lemma chars_str l : chars (str l) = l.
Proof. apply list_ascii_of_string_of_list_ascii. Qed.

Lemma str_chars s : str (chars s) = s.
Proof. apply string_of_list_ascii_of_string. Qed.

Lemma chars_inj s t : chars s = chars t -> s = t.
Proof. intros H. rewrite <- (str_chars s), <- (str_chars t). now rewrite H. Qed.

Lemma chars_app s t : chars (s +:+ t) = chars s ++ chars t.
Proof. induction s as [|c s IH]; simpl; [reflexivity | now rewrite IH]. Qed.

Lemma length_chars s : length (chars s) = String.length s.
Proof. induction s as [|c s IH]; simpl; [reflexivity | now rewrite IH]. Qed.

Lemma chars_replaceNonDigits s :
  chars (replaceNonDigits s) = List.filter isDigit (chars s).
Proof.
  induction s as [|c s IH]; simpl; [reflexivity |].
  destruct (isDigit c); simpl; now rewrite IH.
Qed.

Lemma chars_take n s : chars (JsString.take n s) = firstn n (chars s).
Proof.
  revert s; induction n as [|n IH]; intros [|c s]; simpl; try reflexivity.
  now rewrite IH.
Qed.

Lemma chars_drop n s : chars (JsString.drop n s) = skipn n (chars s).
Proof.
  revert s; induction n as [|n IH]; intros [|c s]; simpl; try reflexivity.
  apply IH.
Qed.

Lemma firstn_min_length {A} (n : nat) (l : list A) :
  firstn (Nat.min n (length l)) l = firstn n l.
Proof.
  destruct (Nat.le_gt_cases n (length l)).
  - now rewrite Nat.min_l.
  - rewrite Nat.min_r by lia. now rewrite !take_ge by lia.
Qed.

(** [s.slice(0, n)] keeps the first [n] characters. *)
Lemma chars_slice_prefix s n :
  0 <= n -> chars (slice s 0 (Some n)) = firstn (Z.to_nat n) (chars s).
Proof.
  intros Hn. unfold slice. cbv beta iota delta [default from_option id].
  rewrite chars_take, chars_drop, <- length_chars.
  replace (0 <? 0) with false by reflexivity.
  rewrite (proj2 (Z.ltb_ge n 0)) by lia.
  replace (Z.to_nat (Z.min 0 (Z.of_nat (length (chars s))))) with 0%nat by lia.
  rewrite drop_0, <- (firstn_min_length (Z.to_nat n)). f_equal. lia.
Qed.

(** [s.slice(k)] drops the first [k] characters. *)
Lemma chars_slice_suffix s k :
  0 <= k -> chars (slice s k None) = skipn (Z.to_nat k) (chars s).
Proof.
  intros Hk. unfold slice. cbv beta iota delta [default from_option id].
  rewrite chars_take, chars_drop, <- length_chars.
  rewrite (proj2 (Z.ltb_ge k 0)), (proj2 (Z.ltb_ge (Z.of_nat _) 0)) by lia.
  destruct (Z.le_gt_cases k (Z.of_nat (length (chars s)))).
  - replace (Z.to_nat (Z.min k (Z.of_nat (length (chars s))))) with (Z.to_nat k) by lia.
    apply take_ge. rewrite length_drop. lia.
  - replace (Z.to_nat (Z.min k (Z.of_nat (length (chars s))))) with (length (chars s)) by lia.
    rewrite !drop_ge by lia. now destruct (Z.to_nat _).
Qed.

(** Appending to a string whose first characters are known. *)
Ltac push_append :=
  repeat match goal with
    | |- context [String.append (String ?a ?s) ?t] =>
        change (String.append (String a s) t) with (String a (String.append s t))
    | |- context [String.append EmptyString ?t] =>
        change (String.append EmptyString t) with t
    end.

Lemma digit_not_lineTerminator c : isDigit c = true -> isLineTerminator c = false.
Proof.
  destruct c as [[] [] [] [] [] [] [] []]; simpl; intros H;
    first [reflexivity | discriminate H].
Qed.

Lemma filter_all_id l :
  Forall (fun c => isDigit c = true) l -> List.filter isDigit l = l.
Proof.
  induction 1 as [|c l Hc _ IH]; simpl; [reflexivity |].
  now rewrite Hc, IH.
Qed.

Lemma Forall_filter_digit l : Forall (fun c => isDigit c = true) (List.filter isDigit l).
Proof.
  induction l as [|c l IH]; simpl; [constructor |].
  destruct (isDigit c) eqn:E; [constructor; assumption | assumption].
Qed.

End StringFacts.

(** ** The formatters *)

Module FormatterFacts.
Import JsString StringFacts.

Abbreviation digit c := (isDigit c = true).

(** *** The regular expression [/.{1,4}/g] on digits *)

Lemma scan_group4 s : forall acc,
  (String.length acc < 4)%nat ->
  Forall (fun c => digit c) (chars s) ->
  map chars (scanDot1to4 acc s) = FormatterSpec.group4 (chars acc ++ chars s).
Proof.
  induction s as [|c s IH]; intros acc Hacc Hs.
  - simpl. rewrite app_nil_r.
    destruct acc as [|x [|y [|z [|w acc]]]]; simpl in *; try reflexivity; lia.
  - apply Forall_cons in Hs as [Hc Hs].
    cbn [scanDot1to4]. rewrite (digit_not_lineTerminator c Hc).
    destruct acc as [|x [|y [|z [|w acc]]]]; simpl in Hacc; try lia;
      push_append; cbn.
    + rewrite (IH (String c EmptyString)) by (simpl; auto with lia). reflexivity.
    + rewrite (IH (String x (String c EmptyString))) by (simpl; auto with lia).
      reflexivity.
    + rewrite (IH (String x (String y (String c EmptyString))))
        by (simpl; auto with lia).
      reflexivity.
    + cbn. f_equal. now rewrite (IH EmptyString) by (simpl; auto with lia).
Qed.

Lemma chars_join sep parts :
  chars (join sep parts) = FormatterSpec.separatedBy (chars sep) (map chars parts).
Proof.
  unfold join.
  induction parts as [|p [|q parts] IH]; try reflexivity.
  change (String.concat sep (p :: q :: parts))
    with (p +:+ sep +:+ String.concat sep (q :: parts)).
  rewrite !chars_app, IH. reflexivity.
Qed.

(** [numericValue.match(/.{1,4}/g) || []] on a string of digits. *)
Lemma match_or_empty s :
  Forall (fun c => digit c) (chars s) ->
  map chars (default [] (matchDot1to4 s)) = FormatterSpec.group4 (chars s).
Proof.
  intros Hs. transitivity (map chars (scanDot1to4 EmptyString s)).
  - unfold matchDot1to4. now destruct (scanDot1to4 EmptyString s).
  - apply (scan_group4 s EmptyString); [simpl; lia | exact Hs].
Qed.

(** *** Grouping *)

(** Induction four elements at a time. *)
Lemma by_fours (P : list ascii -> Prop) :
  P [] ->
  (forall a, P [a]) -> (forall a b, P [a; b]) -> (forall a b c, P [a; b; c]) ->
  (forall a b c d rest, P rest -> P (a :: b :: c :: d :: rest)) ->
  forall l, P l.
Proof.
  intros H0 H1 H2 H3 H4 l.
  assert (forall n l, (length l <= n)%nat -> P l) as Hn.
  { clear l. induction n as [|n IH]; intros l Hl.
    - destruct l; [exact H0 | simpl in Hl; lia].
    - destruct l as [|a [|b [|c [|d rest]]]]; auto.
      apply H4, IH. simpl in Hl. lia. }
  exact (Hn (length l) l (Nat.le_refl _)).
Qed.

Lemma concat_group4 l : concat (FormatterSpec.group4 l) = l.
Proof.
  induction l as [| | | |a b c d rest IH] using by_fours; try reflexivity.
  cbn. now rewrite IH.
Qed.

Lemma group4_chunks l : FormatterSpec.chunksOf4 (FormatterSpec.group4 l).
Proof.
  induction l as [|a|a b|a b c|a b c d rest IH] using by_fours;
    try (constructor; simpl; lia).
  cbn [FormatterSpec.group4].
  destruct (FormatterSpec.group4 rest) eqn:E.
  - constructor; simpl; lia.
  - now constructor.
Qed.

Lemma filter_separatedBy parts :
  List.filter isDigit (FormatterSpec.separatedBy [" "%char] parts)
  = List.filter isDigit (concat parts).
Proof.
  induction parts as [|p [|q parts] IH].
  - reflexivity.
  - simpl. now rewrite app_nil_r.
  - change (FormatterSpec.separatedBy [" "%char] (p :: q :: parts))
      with (p ++ [" "%char] ++ FormatterSpec.separatedBy [" "%char] (q :: parts)).
    change (concat (p :: q :: parts)) with (p ++ concat (q :: parts)).
    rewrite !List.filter_app, IH. reflexivity.
Qed.

(** *** The three formatters meet their description *)

Lemma digits_slice x n :
  0 <= n ->
  chars (slice (replaceNonDigits x) 0 (Some n))
  = firstn (Z.to_nat n) (FormatterSpec.digitsOf x).
Proof.
  intros Hn. now rewrite chars_slice_prefix, chars_replaceNonDigits.
Qed.

Lemma Forall_digits_firstn n x :
  Forall (fun c => digit c) (firstn n (FormatterSpec.digitsOf x)).
Proof. apply Forall_take, Forall_filter_digit. Qed.

Lemma formatCardNumber_spec x :
  Formatters.formatCardNumber x = FormatterSpec.formatCardNumber x.
Proof.
  apply chars_inj. unfold Formatters.formatCardNumber, FormatterSpec.formatCardNumber.
  rewrite chars_str, chars_join, match_or_empty.
  - now rewrite digits_slice.
  - rewrite digits_slice by lia. apply Forall_digits_firstn.
Qed.

Lemma formatExpiryDate_spec x :
  Formatters.formatExpiryDate x = FormatterSpec.formatExpiryDate x.
Proof.
  apply chars_inj. unfold Formatters.formatExpiryDate, FormatterSpec.formatExpiryDate.
  rewrite chars_str. cbv zeta.
  rewrite <- length_chars, digits_slice by lia.
  change (Z.to_nat 4) with 4%nat.
  set (d := firstn 4 (FormatterSpec.digitsOf x)).
  assert (chars (slice (replaceNonDigits x) 0 (Some 4)) = d) as Hd
    by (now rewrite digits_slice).
  destruct (Nat.leb_spec 2 (length d)) as [H|H].
  - rewrite (proj2 (Z.leb_le 2 (Z.of_nat (length d)))) by lia.
    rewrite !chars_app, chars_slice_prefix, chars_slice_suffix, Hd by lia.
    reflexivity.
  - rewrite (proj2 (Z.leb_gt 2 (Z.of_nat (length d)))) by lia. exact Hd.
Qed.

Lemma formatCVV_spec x : Formatters.formatCVV x = FormatterSpec.formatCVV x.
Proof.
  apply chars_inj. unfold Formatters.formatCVV, FormatterSpec.formatCVV.
  now rewrite chars_str, digits_slice.
Qed.

(** The digits of a formatted card number are the digits it was made
    of. *)
Lemma digitsOf_formatCardNumber x :
  FormatterSpec.digitsOf (Formatters.formatCardNumber x)
  = firstn 16 (FormatterSpec.digitsOf x).
Proof.
  rewrite formatCardNumber_spec.
  unfold FormatterSpec.formatCardNumber, FormatterSpec.digitsOf at 1.
  rewrite chars_str, filter_separatedBy, concat_group4.
  apply filter_all_id, Forall_digits_firstn.
Qed.

Example formatCardNumber_long :
  Formatters.formatCardNumber "4242-4242 4242x42429999" = "4242 4242 4242 4242".
Proof. reflexivity. Qed.

Example formatCardNumber_partial : Formatters.formatCardNumber "42424" = "4242 4".
Proof. reflexivity. Qed.

Example formatExpiryDate_two_digits : Formatters.formatExpiryDate "12" = "12/".
Proof. reflexivity. Qed.

Example formatExpiryDate_one_digit : Formatters.formatExpiryDate "1" = "1".
Proof. reflexivity. Qed.

Example formatCVV_long : Formatters.formatCVV "12a345" = "1234".
Proof. reflexivity. Qed.

(** C6.  The card-number formatter is idempotent: formatting a
    formatted card number gives it back, for every input string. *)
Theorem formatCardNumber_idempotent (x : string) :
  Formatters.formatCardNumber (Formatters.formatCardNumber x)
  = Formatters.formatCardNumber x.
Proof.
  rewrite (formatCardNumber_spec (Formatters.formatCardNumber x)).
  unfold FormatterSpec.formatCardNumber at 1.
  rewrite digitsOf_formatCardNumber, take_take, Nat.min_id.
  symmetry. apply formatCardNumber_spec.
Qed.

(** C7.  The three formatters are total functions on strings that do
    what is specified.  [formatCardNumber] keeps the digits of its
    input, at most the first 16, cut into chunks of four (chunks that
    put together give these digits back, all of four digits but
    possibly the last, none empty) with a single space between
    neighbouring chunks.  [formatExpiryDate] keeps at most the first 4
    digits and puts a slash after the second one as soon as there are
    two.  [formatCVV] keeps at most the first 4 digits. *)
Theorem formatters_as_specified (x : string) :
  let digits := List.filter isDigit (chars x) in
  (exists chunks,
      Formatters.formatCardNumber x
        = str (FormatterSpec.separatedBy [" "%char] chunks)
      /\ concat chunks = firstn 16 digits
      /\ FormatterSpec.chunksOf4 chunks)
  /\ Formatters.formatCardNumber x = FormatterSpec.formatCardNumber x
  /\ Formatters.formatExpiryDate x
     = str (if (2 <=? length (firstn 4 digits))%nat
            then firstn 2 (firstn 4 digits) ++ "/"%char :: skipn 2 (firstn 4 digits)
            else firstn 4 digits)
  /\ Formatters.formatCVV x = str (firstn 4 digits).
Proof.
  cbv zeta. split; [| split; [| split]].
  - exists (FormatterSpec.group4 (firstn 16 (FormatterSpec.digitsOf x))).
    split; [apply formatCardNumber_spec |].
    split; [apply concat_group4 | apply group4_chunks].
  - apply formatCardNumber_spec.
  - apply formatExpiryDate_spec.
  - apply formatCVV_spec.
Qed.

End FormatterFacts.

(** ** The expiry rule of [paymentSchema] *)

Module ExpiryFacts.
Import JsString JsNumber JsDate Zod ValidationSchema Calendar StringFacts.

Lemma digitChar_isDigit d : isDigit (digitChar d) = true.
Proof.
  destruct d as [|p|p]; try reflexivity.
  repeat (destruct p as [p|p|]; try reflexivity).
Qed.

Lemma digit_not_slash c : isDigit c = true -> Ascii.eqb c "/" = false.
Proof.
  destruct c as [[] [] [] [] [] [] [] []]; simpl; intros H;
    first [reflexivity | discriminate H].
Qed.

(** Checking a property of the numbers below a bound one by one. *)
Lemma below_bound (P : Z -> bool) (n : nat) :
  forallb (fun k => P (Z.of_nat k)) (seq 0 n) = true ->
  forall m, 0 <= m < Z.of_nat n -> P m = true.
Proof.
  intros H m Hm. rewrite forallb_forall in H.
  rewrite <- (Z2Nat.id m) by lia. apply H, in_seq. lia.
Qed.

Lemma parseInt_twoDigits m : 0 <= m < 100 -> parseInt (twoDigits m) = Some m.
Proof.
  intros Hm.
  pose (P := fun k => match parseInt (twoDigits k) with
                      | Some v => v =? k
                      | None => false
                      end).
  assert (P m = true) as H by (apply (below_bound P 100); [vm_compute; reflexivity | lia]).
  unfold P in H. destruct (parseInt (twoDigits m)); [| discriminate].
  apply Z.eqb_eq in H. now subst.
Qed.

Lemma split_mmyy m yy : split "/" (mmyy m yy) = [twoDigits m; twoDigits yy].
Proof.
  unfold mmyy, twoDigits. push_append. cbn [split].
  rewrite !(digit_not_slash (digitChar _)) by apply digitChar_isDigit. reflexivity.
Qed.

Lemma isMMYY_mmyy m yy : isMMYY (mmyy m yy) = true.
Proof.
  unfold mmyy, twoDigits. push_append. cbn [isMMYY].
  now rewrite !digitChar_isDigit.
Qed.

(** A value passes [expiryDate] when it is not empty, has the format,
    and passes the refinement. *)
Lemma accepts_expiryDate tza now val :
  effectsAccepts (expiryDate tza now) val
  = negb (Z.of_nat (String.length val) <? 1) && isMMYY val
    && expiryInFuture tza now val.
Proof.
  unfold effectsAccepts, effectsIssues, stringIssues, expiryDate.
  cbn [refine regex min z_string checks schema refinement refinementMessage
       app flat_map runCheck].
  destruct (Z.of_nat (String.length val) <? 1), (isMMYY val),
    (expiryInFuture tza now val); reflexivity.
Qed.

(** On a value MM/YY the rule compares the first instant of that
    month with the current instant, and the month number with 12. *)
Lemma accepts_mmyy tza now m yy :
  0 <= m < 100 -> 0 <= yy < 100 ->
  effectsAccepts (expiryDate tza now) (mmyy m yy)
  = gt (TimeClip (monthStart tza (2000 + yy) m)) now && (m <=? 12).
Proof.
  intros Hm Hy. rewrite accepts_expiryDate, isMMYY_mmyy.
  replace (Z.of_nat (String.length (mmyy m yy)) <? 1) with false by reflexivity.
  unfold expiryInFuture. rewrite split_mmyy.
  cbn [lookup list_lookup]. unfold parseIntOf. cbn [default from_option id].
  rewrite !parseInt_twoDigits by lia.
  cbn [fmap option_fmap option_map leNumber newDate].
  rewrite (proj2 (Z.leb_gt (2000 + yy) 99)) by lia.
  rewrite andb_false_r. reflexivity.
Qed.

(** *** Time values of the months 2000 to 2099 *)

(** Linear arithmetic with division and remainder by constants. *)
Ltac dlia := Z.to_euclidean_division_equations; lia.

Lemma DayWithinYear_bounds leap mn : 0 <= DayWithinYear leap mn <= 335.
Proof.
  unfold DayWithinYear.
  destruct leap, mn as [|p|p]; try lia;
    do 5 (try (destruct p as [p|p|]; try lia)).
Qed.

Lemma DayWithinYear_step leap mn :
  0 <= mn < 11 -> DayWithinYear leap mn < DayWithinYear leap (mn + 1).
Proof.
  intros H.
  assert (mn = 0 \/ mn = 1 \/ mn = 2 \/ mn = 3 \/ mn = 4 \/ mn = 5 \/ mn = 6
          \/ mn = 7 \/ mn = 8 \/ mn = 9 \/ mn = 10) as Hc by lia.
  repeat (destruct Hc as [Hc|Hc]; [subst mn; destruct leap; reflexivity |]).
  subst mn; destruct leap; reflexivity.
Qed.

Lemma MakeDay_bounds y k :
  2000 <= y < 2100 -> -12 <= k < 120 -> 0 <= MakeDay y k 1 <= 60000.
Proof.
  intros Hy Hk. unfold MakeDay, DayFromYear.
  pose proof (DayWithinYear_bounds (InLeapYear (y + k / 12)) (k mod 12)).
  dlia.
Qed.

Lemma TimeClip_monthStart tza yy m :
  Z.abs tza <= msPerDay -> 0 <= yy < 100 -> 0 <= m < 100 ->
  TimeClip (monthStart tza (2000 + yy) m) = Some (monthStart tza (2000 + yy) m).
Proof.
  intros Ht Hy Hm. unfold TimeClip, monthStart, UTC, MakeDate, maxTime, msPerDay in *.
  pose proof (MakeDay_bounds (2000 + yy) (m - 1)).
  rewrite (proj2 (Z.leb_le _ _)); [reflexivity | lia].
Qed.

(** The rule wants the first instant of the month to be after the
    current instant. *)
Lemma accepts_mmyy_iff tza now m yy :
  Z.abs tza <= msPerDay -> 1 <= m <= 12 -> 0 <= yy < 100 ->
  effectsAccepts (expiryDate tza now) (mmyy m yy) = true
  <-> now < monthStart tza (2000 + yy) m.
Proof.
  intros Ht Hm Hy.
  rewrite accepts_mmyy, TimeClip_monthStart by lia.
  rewrite (proj2 (Z.leb_le m 12)), andb_true_r by lia.
  apply Z.ltb_lt.
Qed.

(** Whatever the time zone, a month whose first instant is not after
    the current instant is refused. *)
Lemma rejects_begun_month tza now m yy :
  0 <= m < 100 -> 0 <= yy < 100 ->
  monthStart tza (2000 + yy) m <= now ->
  effectsAccepts (expiryDate tza now) (mmyy m yy) = false.
Proof.
  intros Hm Hy Hnow. rewrite accepts_mmyy by lia.
  unfold TimeClip. destruct (Z.abs _ <=? maxTime); [| reflexivity].
  cbn [gt]. now rewrite (proj2 (Z.ltb_ge now _)).
Qed.

Lemma monthStart_increasing tza y m : monthStart tza y m < monthStart tza y (m + 1).
Proof.
  unfold monthStart, UTC, MakeDate, MakeDay, msPerDay.
  replace (m + 1 - 1) with (m - 1 + 1) by lia.
  set (k := m - 1).
  assert (DayFromYear (y + k / 12) + DayWithinYear (InLeapYear (y + k / 12)) (k mod 12)
          < DayFromYear (y + (k + 1) / 12)
            + DayWithinYear (InLeapYear (y + (k + 1) / 12)) ((k + 1) mod 12)); [| lia].
  assert (0 <= k mod 12 < 12) as Hr by (apply Z.mod_pos_bound; lia).
  destruct (Z.eq_dec (k mod 12) 11) as [E|E].
  - replace ((k + 1) mod 12) with 0 by dlia.
    replace ((k + 1) / 12) with (k / 12 + 1) by dlia.
    rewrite E. set (y' := y + k / 12). replace (y + (k / 12 + 1)) with (y' + 1) by lia.
    unfold DayFromYear, InLeapYear.
    destruct (y' mod 4 =? 0) eqn:E4; cbn [negb DayWithinYear];
      [destruct (y' mod 100 =? 0) eqn:E100; cbn [negb];
       [destruct (y' mod 400 =? 0) eqn:E400 |] |];
      rewrite ?Z.eqb_eq, ?Z.eqb_neq in *; dlia.
  - replace ((k + 1) mod 12) with (k mod 12 + 1) by dlia.
    replace ((k + 1) / 12) with (k / 12) by dlia.
    pose proof (DayWithinYear_step (InLeapYear (y + k / 12)) (k mod 12)). lia.
Qed.

Example mmyy_november_2026 : mmyy 11 26 = "11/26".
Proof. reflexivity. Qed.

Example expiry_wrong_format_issue :
  effectsIssues (expiryDate 0 1793620800000) ["expiryDate"] "1/30"
  = [invalid_string ["expiryDate"] "Use MM/YY format"].
Proof. reflexivity. Qed.

(** C8, as stated, fails in its last part: on 1 June 2099 (00:00 UTC,
    time value 4083955200000) the value 12/99 is accepted although
    the year 2099 is no longer in the future. *)
Lemma expiry_12_99_accepted_within_2099 :
  ~ (effectsAccepts (expiryDate 0 4083955200000) "12/99" = true
     <-> yearIsFuture 0 4083955200000 2099).
Proof.
  intros [H _]. specialize (H eq_refl).
  vm_compute in H. discriminate H.
Qed.

(** C8, amended.  Whatever the current instant [now] (and the time
    zone, within a day of UTC): 13/99 is rejected; 01/20 is rejected
    when January 2020 lies in the past, and more precisely exactly
    when January 2020 has begun; 12/99 is accepted exactly when the
    current instant is before 1 December 2099, local time, which
    holds in particular as long as the year 2099 is in the future. *)
Theorem expiry_examples (tza now : Z) :
  Z.abs tza <= msPerDay ->
  effectsAccepts (expiryDate tza now) "13/99" = false
  /\ (monthIsPast tza now 2020 1 ->
      effectsAccepts (expiryDate tza now) "01/20" = false)
  /\ (effectsAccepts (expiryDate tza now) "01/20" = false
      <-> monthStart tza 2020 1 <= now)
  /\ (effectsAccepts (expiryDate tza now) "12/99" = true
      <-> now < monthStart tza 2099 12)
  /\ (yearIsFuture tza now 2099 ->
      effectsAccepts (expiryDate tza now) "12/99" = true).
Proof.
  intros Ht.
  assert (effectsAccepts (expiryDate tza now) "01/20" = true
          <-> now < monthStart tza 2020 1) as Jan
    by (apply (accepts_mmyy_iff tza now 1 20); lia).
  assert (effectsAccepts (expiryDate tza now) "12/99" = true
          <-> now < monthStart tza 2099 12) as Dec
    by (apply (accepts_mmyy_iff tza now 12 99); lia).
  split; [| split; [| split; [| split]]].
  - change "13/99" with (mmyy 13 99). rewrite accepts_mmyy by lia.
    apply andb_false_r.
  - unfold monthIsPast. intros Hpast.
    pose proof (monthStart_increasing tza 2020 1).
    apply not_true_is_false. rewrite Jan. lia.
  - rewrite <- not_true_iff_false, Jan. lia.
  - exact Dec.
  - unfold yearIsFuture, yearStart. intros Hfuture. apply Dec.
    assert (monthStart tza 2099 1 < monthStart tza 2099 12); [| lia].
    unfold monthStart, UTC.
    change (MakeDate (MakeDay 2099 (1 - 1) 1) 0) with 4070908800000.
    change (MakeDate (MakeDay 2099 (12 - 1) 1) 0) with 4099766400000.
    lia.
Qed.

(** On 2 November 2026, noon UTC. *)
Lemma expiry_examples_witness :
  Z.abs 0 <= msPerDay
  /\ effectsAccepts (expiryDate 0 1793620800000) "13/99" = false
  /\ effectsAccepts (expiryDate 0 1793620800000) "01/20" = false
  /\ effectsAccepts (expiryDate 0 1793620800000) "12/99" = true.
Proof.
  assert (Z.abs 0 <= msPerDay) as Ht by (unfold msPerDay; lia).
  destruct (expiry_examples 0 1793620800000 Ht) as (H13 & Hjan & _ & _ & Hdec).
  split; [exact Ht |]. split; [exact H13 |]. split.
  - apply Hjan. unfold monthIsPast. vm_compute. discriminate.
  - apply Hdec. unfold yearIsFuture. vm_compute. reflexivity.
Defined.

(** C9.  The client-side rule wants a strictly future month.  When
    the current instant falls in month [m] of year [2000 + yy], the
    value written MM/YY for that very month is rejected, by the
    refinement alone ("Invalid expiry date"): the parsed expiry is the
    first instant of its month, and a value is accepted exactly when
    that instant is strictly after the current one. *)
Theorem current_month_rejected (tza now m yy : Z) :
  1 <= m <= 12 -> 0 <= yy <= 99 ->
  inMonth tza now (2000 + yy) m ->
  effectsAccepts (expiryDate tza now) (mmyy m yy) = false
  /\ effectsIssues (expiryDate tza now) ["expiryDate"] (mmyy m yy)
     = [custom ["expiryDate"] "Invalid expiry date"]
  /\ (Z.abs tza <= msPerDay ->
      forall t, effectsAccepts (expiryDate tza t) (mmyy m yy) = true
                <-> t < monthStart tza (2000 + yy) m).
Proof.
  intros Hm Hy [Hbegun _].
  assert (effectsAccepts (expiryDate tza now) (mmyy m yy) = false) as Hrej
    by (apply rejects_begun_month; lia).
  split; [exact Hrej |]. split.
  - rewrite accepts_expiryDate, isMMYY_mmyy in Hrej.
    replace (Z.of_nat (String.length (mmyy m yy)) <? 1) with false in Hrej
      by reflexivity.
    cbn [negb andb] in Hrej.
    unfold effectsIssues, stringIssues, expiryDate.
    cbn [refine regex min z_string checks schema refinement refinementMessage
         app flat_map runCheck].
    rewrite isMMYY_mmyy, Hrej.
    replace (Z.of_nat (String.length (mmyy m yy)) <? 1) with false by reflexivity.
    reflexivity.
  - intros Ht t. apply accepts_mmyy_iff; lia.
Qed.

(** On 2 November 2026, noon UTC, the value 11/26. *)
Lemma current_month_rejected_witness :
  inMonth 0 1793620800000 (2000 + 26) 11
  /\ effectsAccepts (expiryDate 0 1793620800000) "11/26" = false.
Proof.
  assert (inMonth 0 1793620800000 (2000 + 26) 11) as Hin
    by (unfold inMonth; vm_compute; split; [discriminate | reflexivity]).
  split; [exact Hin |].
  apply (current_month_rejected 0 1793620800000 11 26); [lia | lia | exact Hin].
Defined.

End ExpiryFacts.

(** ** The payment endpoint *)

Module PaymentFacts.
Import JsString Zod Next ProcessPayment.

(** *** The schema *)

Lemma parseShape_issues shape props :
  fst (parseShape shape props) = flat_map (fieldIssues props) shape.
Proof.
  induction shape as [|[key t] rest IH]; [reflexivity |].
  cbn [parseShape flat_map]. unfold fieldIssues at 1. cbn [fst snd].
  destruct (parseShape rest props) as [issues out]. cbn [fst] in IH. subst issues.
  now destruct (parseType t [key] (props !! key)).
Qed.

Lemma parseShape_lookup shape props key t v :
  In (key, t) shape ->
  parseType t [key] (props !! key) = inr v ->
  is_Some (snd (parseShape shape props) !! key).
Proof.
  induction shape as [|[key' t'] rest IH]; intros Hin Hv; [destruct Hin |].
  cbn [parseShape].
  destruct (parseShape rest props) as [issues out] eqn:E. cbn [snd] in IH.
  destruct (parseType t' [key'] (props !! key')) as [here|v'] eqn:E'; cbn [snd].
  - destruct Hin as [Heq|Hin]; [| now apply IH].
    injection Heq as -> ->. congruence.
  - destruct (decide (key' = key)) as [->|Hne].
    + rewrite lookup_insert_eq. eauto.
    + rewrite lookup_insert_ne by exact Hne.
      destruct Hin as [Heq|Hin]; [congruence | now apply IH].
Qed.

(** Issues of a property carry its path, and a type test raises at
    least one. *)
Lemma parseType_path t p data here :
  parseType t p data = inl here ->
  here <> [] /\ Forall (fun issue => path issue = p) here.
Proof.
  unfold parseType, invalidType.
  destruct t as [s|values].
  - destruct data as [[| | |v| |]|];
      try (intros [= <-]; split; [discriminate | repeat constructor]).
    destruct (stringIssues s p v) as [|i l] eqn:E; [discriminate |].
    intros [= <-]. split; [discriminate |].
    revert E. generalize (i :: l). clear. unfold stringIssues.
    induction (checks s) as [|c cs IH]; cbn [flat_map]; intros l E.
    + subst l. constructor.
    + subst l. apply Forall_app. split; [| now apply IH].
      destruct c as [value message|test message]; cbn [runCheck];
        [destruct (_ <? _) | destruct (test v)]; repeat constructor.
  - destruct data as [[| | |v| |]|];
      try (intros [= <-]; split; [discriminate | repeat constructor]).
    destruct (inValues values v); [discriminate |].
    intros [= <-]. split; [discriminate | repeat constructor].
Qed.

(** A string property of the schema is accepted exactly when it is
    present and a string, whatever the string. *)
Lemma parseType_string p data :
  (exists v, data = Some (JString v)) <->
  (exists v, parseType (ZString z_string) p data = inr v).
Proof.
  split.
  - intros [v ->]. exists v. reflexivity.
  - intros [v H]. destruct data as [[| | |w| |]|]; try discriminate H. eauto.
Qed.


(** An object passes a schema exactly when each property of the
    shape passes. *)
Lemma parse_object_ok shape props :
  (exists out, parse shape (JObject props) = inr out)
  <-> Forall (fun entry =>
                exists v, parseType (snd entry) [fst entry] (props !! fst entry) = inr v)
             shape.
Proof.
  unfold parse. pose proof (parseShape_issues shape props) as Hi.
  destruct (parseShape shape props) as [issues out]. cbn [fst] in Hi.
  transitivity (issues = []).
  - destruct issues; split; intros H; eauto; try discriminate.
    now destruct H.
  - rewrite Hi. clear. induction shape as [|entry rest IH]; cbn [flat_map].
    + split; [constructor | reflexivity].
    + rewrite List.Forall_cons_iff, <- IH. split.
      * intros H. apply app_eq_nil in H as [H1 H2]. split; [| exact H2].
        unfold fieldIssues in H1.
        destruct (parseType _ _ _) as [here|v] eqn:E; [| eauto].
        apply parseType_path in E as [Hne _]. congruence.
      * intros [[v Hv] H2]. unfold fieldIssues at 1. now rewrite Hv, H2.
Qed.

Lemma parse_object_lookup shape props out key t :
  parse shape (JObject props) = inr out -> In (key, t) shape -> is_Some (out !! key).
Proof.
  intros Hp Hin.
  assert (exists v, parseType t [key] (props !! key) = inr v) as [v Hv].
  { assert (exists o, parse shape (JObject props) = inr o) as H by eauto.
    apply parse_object_ok in H. rewrite List.Forall_forall in H.
    exact (H (key, t) Hin). }
  pose proof (parseShape_lookup shape props key t v Hin Hv) as Hl.
  unfold parse in Hp. destruct (parseShape shape props) as [[|i issues] o]; [| discriminate].
  injection Hp as <-. exact Hl.
Qed.

Lemma parseType_enum p data :
  (data = Some (JString "ELECTRICITY") \/ data = Some (JString "GAS"))
  <-> (exists v, parseType (ZEnum ["ELECTRICITY"; "GAS"]) p data = inr v).
Proof.
  split.
  - intros [-> | ->]; eexists; reflexivity.
  - intros [v H]. destruct data as [[| | |w| |]|]; try discriminate H.
    cbn [parseType inValues existsb] in H.
    destruct (String.eqb_spec w "ELECTRICITY") as [->|_]; [now left |].
    destruct (String.eqb_spec w "GAS") as [->|_]; [now right |].
    discriminate H.
Qed.

(** The schema of the endpoint accepts exactly the well-typed objects. *)
Lemma schema_accepts_wellTyped props :
  (exists out, parse paymentRequestSchema (JObject props) = inr out) <-> wellTyped props.
Proof.
  rewrite parse_object_ok. unfold paymentRequestSchema, wellTyped, isStringField.
  rewrite !List.Forall_cons_iff. cbn [fst snd].
  rewrite <- !parseType_string, <- parseType_enum.
  split; [intros (?&?&?&?&?&?&_) | intros (?&?&?&?&?&?)]; repeat split; auto.
Qed.

(** *** The handler *)

(** The three ways through [POST]. *)
Lemma POST_cases request :
  match json request with
  | inl e => POST request = failed500
  | inr body =>
      match parse paymentRequestSchema body with
      | inl issues => POST request = invalid400 issues
      | inr _ => POST request = ok200
      end
  end.
Proof.
  unfold POST, POST_io, tryBlock.
  destruct (json request) as [e|body]; [reflexivity |].
  destruct (parse paymentRequestSchema body) as [issues|validatedData] eqn:E;
    [reflexivity |].
  assert (is_Some (validatedData !! "cardNumber")) as [c Hc].
  { destruct body; try discriminate E.
    apply (parse_object_lookup _ _ _ "cardNumber" (ZString z_string) E).
    unfold paymentRequestSchema. right. now left. }
  rewrite Hc. reflexivity.
Qed.

Lemma POST_wellTyped props : wellTyped props <-> POST (requestOf props) = ok200.
Proof.
  rewrite <- schema_accepts_wellTyped.
  pose proof (POST_cases (requestOf props)) as H. cbn [requestOf json] in H.
  destruct (parse paymentRequestSchema (JObject props)) as [issues|out].
  - rewrite H. split; [intros [? [=]] | discriminate].
  - split; eauto.
Qed.

Lemma POST_throws request e : json request = inl e -> POST request = failed500.
Proof. intros H. pose proof (POST_cases request) as Hc. now rewrite H in Hc. Qed.

(** Status 400 is the answer to a body that fails the schema, and to
    nothing else; the [errors] are the issues of the schema. *)
Lemma POST_400 request :
  status (POST request) = 400
  <-> exists body issues,
        json request = inr body /\ parse paymentRequestSchema body = inl issues.
Proof.
  pose proof (POST_cases request) as H.
  destruct (json request) as [e|body].
  - rewrite H. split; [discriminate | intros (?&?&[=]&_)].
  - destruct (parse paymentRequestSchema body) as [issues|out] eqn:E; rewrite H.
    + split; [eauto | reflexivity].
    + split; [discriminate | intros (?&?&[= <-]&?); congruence].
Qed.

Lemma POST_errors request issues :
  errors (body (POST request)) = Some issues
  <-> exists body, json request = inr body /\ parse paymentRequestSchema body = inl issues.
Proof.
  pose proof (POST_cases request) as H.
  destruct (json request) as [e|b].
  - rewrite H. split; [discriminate | intros (?&[=]&_)].
  - destruct (parse paymentRequestSchema b) as [issues'|out] eqn:E; rewrite H.
    + cbn. split; [intros [= <-]; eauto | intros (?&[= <-]&?); congruence].
    + split; [discriminate | intros (?&[= <-]&?); congruence].
Qed.

Lemma parse_object_issues shape props issues :
  parse shape (JObject props) = inl issues
  <-> fst (parseShape shape props) = issues /\ issues <> [].
Proof.
  unfold parse. destruct (parseShape shape props) as [[|i l] out]; cbn [fst].
  - split; [discriminate | intros [<- H]; congruence].
  - split; [intros [= <-]; split; [reflexivity | discriminate] | intros [<- _]; reflexivity].
Qed.



Example POST_missing_and_mistyped :
  POST (requestOf (delete "amount"
                     (<["accountType" := JString "WATER"]>
                        (<["cvv" := JNumber 123 0]> (bodyWithAmount "50.00")))))
  = invalid400
      [ invalid_type "string" "undefined" ["amount"] "Required";
        invalid_type "string" "number" ["cvv"] "Expected string, received number";
        invalid_enum_value "WATER" ["ELECTRICITY"; "GAS"] ["accountType"]
          "Invalid enum value. Expected 'ELECTRICITY' | 'GAS', received 'WATER'" ].
Proof. vm_compute. reflexivity. Qed.

Example POST_body_not_an_object :
  POST {| json := inr (JArray []) |}
  = invalid400 [invalid_type "object" "array" [] "Expected object, received array"].
Proof. reflexivity. Qed.






(** C2.  A body in which amount, card number, expiry date, CVV and
    account id are present as strings, of any content whatsoever, and
    the account type is ELECTRICITY or GAS, is answered with status 200
    and success: the schema looks at presence and type only. *)
Theorem POST_accepts_any_contents
  (props : gmap string JsonValue)
  (amount cardNumber expiryDate cvv accountId accountType : string) :
  props !! "amount" = Some (JString amount) ->
  props !! "cardNumber" = Some (JString cardNumber) ->
  props !! "expiryDate" = Some (JString expiryDate) ->
  props !! "cvv" = Some (JString cvv) ->
  props !! "accountId" = Some (JString accountId) ->
  props !! "accountType" = Some (JString accountType) ->
  accountType = "ELECTRICITY" \/ accountType = "GAS" ->
  status (POST (requestOf props)) = 200
  /\ body (POST (requestOf props))
     = {| success := true;
          message := "Payment processed successfully";
          errors := None |}.
Proof.
  intros Ha Hc He Hv Hi Ht Hty.
  assert (POST (requestOf props) = ok200) as ->; [| now split].
  apply POST_wellTyped. unfold wellTyped, isStringField.
  repeat split; eauto. destruct Hty as [-> | ->]; auto.
Qed.

(** A body of nonsense strings. *)
Lemma POST_accepts_any_contents_witness :
  let props : gmap string JsonValue :=
    <["amount" := JString "-5"]>
      (<["cardNumber" := JString "not a card"]>
         (<["expiryDate" := JString "99/99"]>
            (<["cvv" := JString ""]>
               (<["accountId" := JString ""]>
                  (<["accountType" := JString "ELECTRICITY"]> ∅))))) in
  status (POST (requestOf props)) = 200
  /\ body (POST (requestOf props))
     = {| success := true;
          message := "Payment processed successfully";
          errors := None |}.
Proof.
  intros props.
  apply (POST_accepts_any_contents props "-5" "not a card" "99/99" "" "" "ELECTRICITY");
    first [ vm_compute; reflexivity | left; reflexivity ].
Defined.

Example luhn_4242 : ValidationSchema.luhnCheck "4242424242424242" = true.
Proof. reflexivity. Qed.

Example luhn_4241 : ValidationSchema.luhnCheck "4242424242424241" = false.
Proof. reflexivity. Qed.

(** C3.  A body with amount ["50.00"], a card number that passes the
    Luhn checksum, an expiry date MM/YY that the client-side rule
    accepts at the current instant, a CVV of 3 or 4 digits, a string
    account id and account type ELECTRICITY or GAS is answered with
    status 200, success, and a message. *)
Theorem POST_valid_payment
  (tza now : Z) (props : gmap string JsonValue)
  (cardNumber expiryDate cvv accountId accountType : string) :
  props !! "amount" = Some (JString "50.00") ->
  props !! "cardNumber" = Some (JString cardNumber) ->
  ValidationSchema.luhnCheck cardNumber = true ->
  props !! "expiryDate" = Some (JString expiryDate) ->
  effectsAccepts (ValidationSchema.expiryDate tza now) expiryDate = true ->
  props !! "cvv" = Some (JString cvv) ->
  stringAccepts ValidationSchema.cvv cvv = true ->
  props !! "accountId" = Some (JString accountId) ->
  props !! "accountType" = Some (JString accountType) ->
  accountType = "ELECTRICITY" \/ accountType = "GAS" ->
  status (POST (requestOf props)) = 200
  /\ success (body (POST (requestOf props))) = true
  /\ message (body (POST (requestOf props))) = "Payment processed successfully"
  /\ errors (body (POST (requestOf props))) = None.
Proof.
  intros Ha Hc _ He _ Hv _ Hi Ht Hty.
  assert (POST (requestOf props) = ok200) as ->; [| now repeat split].
  apply POST_wellTyped. unfold wellTyped, isStringField.
  repeat split; eauto. destruct Hty as [-> | ->]; auto.
Qed.

(** On 2 November 2026, noon UTC: card 4242 4242 4242 4242, expiry
    12/30, CVV 123, account A-0001, GAS. *)
Lemma POST_valid_payment_witness :
  status (POST (requestOf (bodyWithAmount "50.00"))) = 200
  /\ success (body (POST (requestOf (bodyWithAmount "50.00")))) = true
  /\ message (body (POST (requestOf (bodyWithAmount "50.00"))))
     = "Payment processed successfully"
  /\ errors (body (POST (requestOf (bodyWithAmount "50.00")))) = None.
Proof.
  apply (POST_valid_payment 0 1793620800000 (bodyWithAmount "50.00")
           "4242424242424242" "12/30" "123" "A-0001" "GAS");
    first [ vm_compute; reflexivity | right; reflexivity ].
Defined.

(** C4.  When reading the body throws (the body is not well-formed
    JSON), the answer is status 500 with exactly success false and the
    generic message, and no [errors].  Status 500 is given in that case
    only.  Status 400 is given exactly when the body was parsed and
    fails the schema, and [errors] are present exactly then, being the
    issues of the schema. *)
Theorem POST_malformed_body (request : Request) :
  (forall e, json request = inl e ->
     POST request
     = {| status := 500;
          body := {| success := false;
                     message := "Payment processing failed";
                     errors := None |} |})
  /\ (status (POST request) = 500 <-> exists e, json request = inl e)
  /\ (status (POST request) = 400
      <-> exists body issues,
            json request = inr body /\ parse paymentRequestSchema body = inl issues)
  /\ (forall issues,
        errors (body (POST request)) = Some issues
        <-> status (POST request) = 400
            /\ exists body, json request = inr body
                            /\ parse paymentRequestSchema body = inl issues).
Proof.
  split; [intros e; apply POST_throws |].
  split; [| split; [apply POST_400 |]].
  - pose proof (POST_cases request) as H.
    destruct (json request) as [e|b].
    + rewrite H. split; [eauto | reflexivity].
    + destruct (parse paymentRequestSchema b); rewrite H;
        (split; [discriminate | intros [? [=]]]).
  - intros issues. rewrite POST_errors, POST_400. split.
    + intros (b & Hb & Hp). split; [exists b, issues | exists b]; split; assumption.
    + intros [_ H]. exact H.
Qed.

(** A body that is not JSON, a body that fails the schema. *)
Lemma POST_malformed_body_witness :
  POST {| json := inl (SyntaxError "Unexpected token } in JSON at position 1") |}
  = failed500
  /\ status (POST {| json := inr JNull |}) = 400.
Proof.
  split.
  - apply (POST_malformed_body
             {| json := inl (SyntaxError "Unexpected token } in JSON at position 1") |})
      with (e := SyntaxError "Unexpected token } in JSON at position 1").
    reflexivity.
  - apply (POST_malformed_body {| json := inr JNull |}).
    exists JNull. eexists. split; reflexivity.
Defined.

End PaymentFacts.

(** ** The account list *)

Module AccountFacts.
Import Next.

(** *** [GET /api/getAccounts] *)

Lemma serve_unchanged urls store :
  GetAccounts.serve urls store
  = (store, map (fun _ => {| status := 200; body := store |}) urls).
Proof.
  induction urls as [|url rest IH]; [reflexivity |].
  cbn [GetAccounts.serve GetAccounts.GET]. rewrite IH. reflexivity.
Qed.

(** C10.  Every invocation of [GET], whatever the request, answers
    with status 200 and the accounts, and leaves them as they are; so
    any sequence of invocations from the initial list gives each time
    the same nine records, A-0001 to A-0009 in this order, each with a
    type ELECTRICITY or GAS, an address, and a balance that may be
    negative, zero or positive. *)
Theorem GET_returns_all_accounts :
  (forall url store,
      GetAccounts.GET url store = (store, {| status := 200; body := store |}))
  /\ (forall urls,
        GetAccounts.serve urls GetAccounts.accounts
        = (GetAccounts.accounts,
           map (fun _ => {| status := 200; body := GetAccounts.accounts |}) urls))
  /\ map GetAccounts.id GetAccounts.accounts
     = ["A-0001"; "A-0002"; "A-0003"; "A-0004"; "A-0005";
        "A-0006"; "A-0007"; "A-0008"; "A-0009"]
  /\ map GetAccounts.type GetAccounts.accounts
     = [ELECTRICITY; GAS; ELECTRICITY; ELECTRICITY; GAS;
        ELECTRICITY; GAS; ELECTRICITY; GAS]
  /\ map GetAccounts.balance GetAccounts.accounts
     = [30; 0; -40; 50; 25; -15; 0; 120; -60]
  /\ Forall (fun a => GetAccounts.address a <> "") GetAccounts.accounts.
Proof.
  split; [reflexivity |].
  split; [intros urls; apply serve_unchanged |].
  repeat split. repeat constructor; discriminate.
Qed.

(** *** [getFilteredAccounts] *)

Lemma UtilityType_eqb_eq a b : Page.UtilityType_eqb a b = true <-> a = b.
Proof. destruct a, b; cbn; split; congruence. Qed.

Lemma filter_sublist {A} (f : A -> bool) l : sublist (List.filter f l) l.
Proof.
  induction l as [|x l IH]; cbn [List.filter]; [constructor |].
  destruct (f x); now constructor.
Qed.

Lemma filter_true {A} (l : list A) : List.filter (fun _ => true) l = l.
Proof. induction l as [|x l IH]; cbn; [reflexivity | now rewrite IH]. Qed.

(** C5.  Filtering with the tag ALL gives the list back.  Filtering
    with ELECTRICITY or GAS gives a part of the list, its elements in
    the order and number they have in the list, all of the type of the
    tag (and every account of that type is among them). *)
Theorem getFilteredAccounts_spec (L : list Page.Account) :
  Page.getFilteredAccounts L Page.ALL = L
  /\ forall t : UtilityType,
       sublist (Page.getFilteredAccounts L (Page.Only t)) L
       /\ Forall (fun a => Page.type a = t) (Page.getFilteredAccounts L (Page.Only t))
       /\ (forall a, In a (Page.getFilteredAccounts L (Page.Only t))
                     <-> In a L /\ Page.type a = t).
Proof.
  unfold Page.getFilteredAccounts. split; [apply filter_true |].
  intros t. cbn [Page.strictEq].
  assert (forall a, In a (List.filter (fun account => Page.UtilityType_eqb (Page.type account) t) L)
                    <-> In a L /\ Page.type a = t) as Hin
    by (intros a; now rewrite List.filter_In, UtilityType_eqb_eq).
  split; [apply filter_sublist |]. split; [| exact Hin].
  apply List.Forall_forall. intros a Ha. now apply Hin in Ha.
Qed.

Example filter_gas :
  let a1 := {| Page.id := "A-0001"; Page.type := ELECTRICITY;
               Page.address := "1 Greville Ct"; Page.balance := 30 |} in
  let a2 := {| Page.id := "A-0002"; Page.type := GAS;
               Page.address := "74 Taltarni Rd"; Page.balance := 0 |} in
  Page.getFilteredAccounts [a1; a2; a1] (Page.Only GAS) = [a2].
Proof. reflexivity. Qed.

End AccountFacts.

(** * More properties *)

(** ** The formatters, continued *)

Module FormatterMore.
Import JsString StringFacts FormatterFacts.

Lemma digitsOf_app x y :
  FormatterSpec.digitsOf (x +:+ y) = FormatterSpec.digitsOf x ++ FormatterSpec.digitsOf y.
Proof. unfold FormatterSpec.digitsOf. now rewrite chars_app, List.filter_app. Qed.

Lemma slash_not_digit : isDigit "/" = false.
Proof. reflexivity. Qed.

(** The digits of a formatted expiry date and of a formatted CVV are
    the digits they were made of. *)
Lemma digitsOf_formatExpiryDate x :
  FormatterSpec.digitsOf (Formatters.formatExpiryDate x)
  = firstn 4 (FormatterSpec.digitsOf x).
Proof.
  rewrite formatExpiryDate_spec.
  unfold FormatterSpec.formatExpiryDate, FormatterSpec.digitsOf at 1.
  rewrite chars_str. cbv zeta.
  set (d := firstn 4 (FormatterSpec.digitsOf x)).
  assert (List.filter isDigit d = d) as Hd
    by apply filter_all_id, Forall_digits_firstn.
  destruct (2 <=? length d)%nat; [| exact Hd].
  rewrite List.filter_app. cbn [List.filter]. rewrite slash_not_digit.
  rewrite <- List.filter_app, take_drop. exact Hd.
Qed.

Lemma digitsOf_formatCVV x :
  FormatterSpec.digitsOf (Formatters.formatCVV x) = firstn 4 (FormatterSpec.digitsOf x).
Proof.
  rewrite formatCVV_spec. unfold FormatterSpec.formatCVV, FormatterSpec.digitsOf at 1.
  rewrite chars_str. apply filter_all_id, Forall_digits_firstn.
Qed.

Lemma formatExpiryDate_twice x :
  Formatters.formatExpiryDate (Formatters.formatExpiryDate x) = Formatters.formatExpiryDate x.
Proof.
  rewrite (formatExpiryDate_spec (Formatters.formatExpiryDate x)).
  unfold FormatterSpec.formatExpiryDate at 1.
  rewrite digitsOf_formatExpiryDate, take_take, Nat.min_id.
  symmetry. apply formatExpiryDate_spec.
Qed.

Lemma formatCVV_twice x :
  Formatters.formatCVV (Formatters.formatCVV x) = Formatters.formatCVV x.
Proof.
  rewrite (formatCVV_spec (Formatters.formatCVV x)).
  unfold FormatterSpec.formatCVV at 1.
  rewrite digitsOf_formatCVV, take_take, Nat.min_id.
  symmetry. apply formatCVV_spec.
Qed.

Lemma formatCardNumber_twice x :
  Formatters.formatCardNumber (Formatters.formatCardNumber x) = Formatters.formatCardNumber x.
Proof.
  rewrite (formatCardNumber_spec (Formatters.formatCardNumber x)).
  unfold FormatterSpec.formatCardNumber at 1.
  rewrite digitsOf_formatCardNumber, take_take, Nat.min_id.
  symmetry. apply formatCardNumber_spec.
Qed.

(** X1.  The expiry-date formatter and the CVV formatter are
    idempotent. *)
Theorem formatExpiryDate_formatCVV_idempotent (x : string) :
  Formatters.formatExpiryDate (Formatters.formatExpiryDate x) = Formatters.formatExpiryDate x
  /\ Formatters.formatCVV (Formatters.formatCVV x) = Formatters.formatCVV x.
Proof.
  split.
  - rewrite (formatExpiryDate_spec (Formatters.formatExpiryDate x)).
    unfold FormatterSpec.formatExpiryDate at 1.
    rewrite digitsOf_formatExpiryDate, take_take, Nat.min_id.
    symmetry. apply formatExpiryDate_spec.
  - rewrite (formatCVV_spec (Formatters.formatCVV x)).
    unfold FormatterSpec.formatCVV at 1.
    rewrite digitsOf_formatCVV, take_take, Nat.min_id.
    symmetry. apply formatCVV_spec.
Qed.

(** *** Lengths and alphabet *)

Lemma length_separatedBy c parts :
  parts <> [] ->
  (length (FormatterSpec.separatedBy [c] parts) + 1
   = length (concat parts) + length parts)%nat.
Proof.
  induction parts as [|p [|q parts] IH]; intros Hne; [congruence | |].
  - cbn. rewrite app_nil_r. lia.
  - change (FormatterSpec.separatedBy [c] (p :: q :: parts))
      with (p ++ [c] ++ FormatterSpec.separatedBy [c] (q :: parts)).
    change (concat (p :: q :: parts)) with (p ++ concat (q :: parts)).
    rewrite !length_app. cbn [length]. specialize (IH ltac:(discriminate)).
    cbn [length] in IH. lia.
Qed.

Lemma length_group4 l : (4 * length (FormatterSpec.group4 l) < length l + 4)%nat.
Proof.
  induction l as [|a|a b|a b c|a b c d rest IH] using by_fours; cbn; lia.
Qed.

Lemma group4_nil l : FormatterSpec.group4 l = [] -> l = [].
Proof. destruct l as [|a [|b [|c [|d rest]]]]; cbn; congruence. Qed.

Lemma Forall_separatedBy (P : ascii -> Prop) c parts :
  P c -> Forall P (concat parts) -> Forall P (FormatterSpec.separatedBy [c] parts).
Proof.
  intros Hc. induction parts as [|p [|q parts] IH]; intros H.
  - constructor.
  - cbn in *. now rewrite app_nil_r in H.
  - change (FormatterSpec.separatedBy [c] (p :: q :: parts))
      with (p ++ [c] ++ FormatterSpec.separatedBy [c] (q :: parts)).
    change (concat (p :: q :: parts)) with (p ++ concat (q :: parts)) in H.
    apply Forall_app in H as [Hp Hrest].
    apply Forall_app. split; [exact Hp |]. constructor; [exact Hc | now apply IH].
Qed.

(** X2.  What the formatters return is short and plain: a card number
    of at most 19 characters, digits and spaces only; an expiry date of
    at most 5 characters, digits and a slash only; a CVV of at most 4
    characters, digits only. *)
Theorem formatters_output_bounds (x : string) :
  ((String.length (Formatters.formatCardNumber x) <= 19)%nat
   /\ Forall (fun c => isDigit c = true \/ c = " "%char)
        (chars (Formatters.formatCardNumber x)))
  /\ ((String.length (Formatters.formatExpiryDate x) <= 5)%nat
      /\ Forall (fun c => isDigit c = true \/ c = "/"%char)
           (chars (Formatters.formatExpiryDate x)))
  /\ ((String.length (Formatters.formatCVV x) <= 4)%nat
      /\ Forall (fun c => isDigit c = true) (chars (Formatters.formatCVV x))).
Proof.
  split; [| split].
  - rewrite <- length_chars, formatCardNumber_spec.
    unfold FormatterSpec.formatCardNumber. rewrite chars_str.
    set (d := firstn 16 (FormatterSpec.digitsOf x)).
    assert (length d <= 16)%nat as Hlen by (unfold d; rewrite length_take; lia).
    split.
    + destruct (FormatterSpec.group4 d) as [|p ps] eqn:E; [cbn; lia |].
      pose proof (length_separatedBy " "%char (p :: ps) ltac:(discriminate)) as H.
      pose proof (length_group4 d) as H4. rewrite E in H4.
      rewrite <- E, concat_group4 in H. rewrite E in H. lia.
    + apply Forall_separatedBy; [now right |].
      rewrite concat_group4. unfold d.
      eapply Forall_impl; [apply Forall_digits_firstn | intros c Hc; now left].
  - rewrite <- length_chars, formatExpiryDate_spec.
    unfold FormatterSpec.formatExpiryDate. rewrite chars_str. cbv zeta.
    set (d := firstn 4 (FormatterSpec.digitsOf x)).
    assert (length d <= 4)%nat as Hlen by (unfold d; rewrite length_take; lia).
    assert (Forall (fun c => isDigit c = true \/ c = "/"%char) d) as Hd
      by (eapply Forall_impl; [apply Forall_digits_firstn | intros c Hc; now left]).
    destruct (2 <=? length d)%nat; [| split; [lia | exact Hd]].
    split.
    + rewrite length_app. cbn [length]. rewrite length_take, length_drop. lia.
    + apply Forall_app. split; [now apply Forall_take |].
      constructor; [now right | now apply Forall_drop].
  - rewrite <- length_chars, formatCVV_spec.
    unfold FormatterSpec.formatCVV. rewrite chars_str.
    split; [rewrite length_take; lia | apply Forall_digits_firstn].
Qed.

(** X3.  Once the input holds 16 digits (4 for an expiry date or a
    CVV), whatever is typed after them changes nothing. *)
Theorem formatters_ignore_excess (x y : string) :
  ((16 <= length (FormatterSpec.digitsOf x))%nat ->
   Formatters.formatCardNumber (x +:+ y) = Formatters.formatCardNumber x)
  /\ ((4 <= length (FormatterSpec.digitsOf x))%nat ->
      Formatters.formatExpiryDate (x +:+ y) = Formatters.formatExpiryDate x
      /\ Formatters.formatCVV (x +:+ y) = Formatters.formatCVV x).
Proof.
  split; [intros H | intros H; split].
  - rewrite !formatCardNumber_spec. unfold FormatterSpec.formatCardNumber.
    now rewrite digitsOf_app, take_app_le.
  - rewrite !formatExpiryDate_spec. unfold FormatterSpec.formatExpiryDate.
    now rewrite digitsOf_app, take_app_le.
  - rewrite !formatCVV_spec. unfold FormatterSpec.formatCVV.
    now rewrite digitsOf_app, take_app_le.
Qed.

Lemma formatters_ignore_excess_witness :
  Formatters.formatCardNumber ("4242 4242 4242 4242" +:+ "99")
  = Formatters.formatCardNumber "4242 4242 4242 4242"
  /\ Formatters.formatCVV ("1234" +:+ "5") = Formatters.formatCVV "1234".
Proof.
  split.
  - apply (formatters_ignore_excess "4242 4242 4242 4242" "99"). vm_compute. lia.
  - apply (formatters_ignore_excess "1234" "5"). vm_compute. lia.
Defined.

End FormatterMore.

(** ** The client-side rules, continued *)

Module RulesMore.
Import JsString JsNumber JsDate Zod ValidationSchema Calendar StringFacts
  FormatterFacts ExpiryFacts.

Lemma allDigits_Forall s :
  allDigits s = true <-> Forall (fun c => isDigit c = true) (chars s).
Proof.
  induction s as [|c s IH]; cbn [allDigits list_ascii_of_string].
  - split; [constructor | reflexivity].
  - rewrite andb_true_iff, IH, List.Forall_cons_iff. reflexivity.
Qed.

Lemma accepts_cvv s : stringAccepts cvv s = is3or4Digits s.
Proof.
  unfold stringAccepts, stringIssues, cvv.
  cbn [regex min z_string checks app flat_map runCheck].
  unfold is3or4Digits.
  destruct s as [|c s]; [reflexivity |].
  replace (Z.of_nat (String.length (String c s)) <? 1) with false
    by (symmetry; apply Z.ltb_ge; cbn [String.length]; lia).
  cbn [app]. now destruct (allDigits (String c s) && _).
Qed.

(** X4.  What the formatters return meets the format of the rules as
    soon as enough digits are typed: a formatted CVV passes the CVV rule
    exactly when the input holds at least 3 digits, and a formatted
    expiry date has the form MM/YY exactly when the input holds at
    least 4 digits. *)
Theorem formatted_values_meet_formats (x : string) :
  (stringAccepts cvv (Formatters.formatCVV x) = true
   <-> (3 <= length (FormatterSpec.digitsOf x))%nat)
  /\ (isMMYY (Formatters.formatExpiryDate x) = true
      <-> (4 <= length (FormatterSpec.digitsOf x))%nat).
Proof.
  split.
  - rewrite accepts_cvv. unfold is3or4Digits.
    rewrite andb_true_iff, orb_true_iff, !Nat.eqb_eq, allDigits_Forall.
    rewrite <- length_chars, formatCVV_spec. unfold FormatterSpec.formatCVV.
    rewrite chars_str, length_take.
    pose proof (Forall_digits_firstn 4 x). intuition lia.
  - rewrite formatExpiryDate_spec. unfold FormatterSpec.formatExpiryDate. cbv zeta.
    pose proof (Forall_digits_firstn 4 x) as Hd.
    pose proof (length_take (FormatterSpec.digitsOf x) 4) as Hlen.
    destruct (firstn 4 (FormatterSpec.digitsOf x)) as [|a [|b [|c [|d [|e l]]]]];
      cbn [length] in Hlen; cbn; try (split; [discriminate | lia]).
    repeat (apply Forall_cons in Hd as [-> Hd]). cbn. split; [lia | reflexivity].
Qed.

(** *** The expiry rule on every value *)

Lemma digit_is_digitChar c :
  isDigit c = true -> exists k, 0 <= k <= 9 /\ c = digitChar k.
Proof.
  intros H. exists (Z.of_N (N_of_ascii c) - 48).
  destruct c as [[] [] [] [] [] [] [] []]; cbn in H; try discriminate H;
    cbn; split; (lia || reflexivity).
Qed.

Lemma isMMYY_is_mmyy val :
  isMMYY val = true ->
  exists m yy, 0 <= m < 100 /\ 0 <= yy < 100 /\ val = mmyy m yy.
Proof.
  unfold isMMYY.
  destruct val as [|a [|b [|s [|c [|d [|e rest]]]]]]; try discriminate;
    destruct s as [[] [] [] [] [] [] [] []]; try discriminate.
  rewrite !andb_true_iff. intros [[[Ha Hb] Hc] Hd].
  apply digit_is_digitChar in Ha as (ka & Hka & ->).
  apply digit_is_digitChar in Hb as (kb & Hkb & ->).
  apply digit_is_digitChar in Hc as (kc & Hkc & ->).
  apply digit_is_digitChar in Hd as (kd & Hkd & ->).
  exists (10 * ka + kb), (10 * kc + kd).
  split; [lia |]. split; [lia |].
  unfold mmyy, twoDigits.
  replace ((10 * ka + kb) / 10) with ka by (Z.to_euclidean_division_equations; lia).
  replace ((10 * ka + kb) mod 10) with kb by (Z.to_euclidean_division_equations; lia).
  replace ((10 * kc + kd) / 10) with kc by (Z.to_euclidean_division_equations; lia).
  replace ((10 * kc + kd) mod 10) with kd by (Z.to_euclidean_division_equations; lia).
  reflexivity.
Qed.

(** X5.  The expiry rule, on every value: a value is accepted exactly
    when it is MM/YY for a month number MM from 00 to 12 and the first
    instant of that month of the year 20YY is after the current
    instant. *)
Theorem expiry_accepts_iff (tza now : Z) (val : string) :
  Z.abs tza <= msPerDay ->
  effectsAccepts (expiryDate tza now) val = true
  <-> exists m yy, 0 <= m <= 12 /\ 0 <= yy <= 99 /\ val = mmyy m yy
                   /\ now < monthStart tza (2000 + yy) m.
Proof.
  intros Ht. split.
  - intros H. pose proof H as H'. rewrite accepts_expiryDate in H'.
    apply andb_true_iff in H' as [H' _]. apply andb_true_iff in H' as [_ Hf].
    apply isMMYY_is_mmyy in Hf as (m & yy & Hm & Hy & ->).
    rewrite accepts_mmyy, TimeClip_monthStart in H by lia.
    apply andb_true_iff in H as [Hgt Hle].
    apply Z.ltb_lt in Hgt. apply Z.leb_le in Hle.
    exists m, yy. repeat split; lia.
  - intros (m & yy & Hm & Hy & -> & Hnow).
    rewrite accepts_mmyy, TimeClip_monthStart by lia.
    apply andb_true_iff. split; [now apply Z.ltb_lt | apply Z.leb_le; lia].
Qed.

Lemma expiry_accepts_iff_witness :
  effectsAccepts (expiryDate 0 1793620800000) "12/26" = true.
Proof.
  apply (expiry_accepts_iff 0 1793620800000 "12/26"); [unfold msPerDay; lia |].
  exists 12, 26. repeat split; try lia; vm_compute; reflexivity.
Defined.

Lemma monthStart_zero tza y : monthStart tza y 0 = monthStart tza (y - 1) 12.
Proof.
  unfold monthStart, UTC, MakeDate, MakeDay.
  replace ((0 - 1) / 12) with (-1) by reflexivity.
  replace ((0 - 1) mod 12) with 11 by reflexivity.
  replace ((12 - 1) / 12) with 0 by reflexivity.
  replace ((12 - 1) mod 12) with 11 by reflexivity.
  now replace (y - 1 + 0) with (y + -1) by lia.
Qed.

(** X6.  The month number 00 is not refused: 00/YY stands for December
    of the year before 20YY, and is accepted exactly as long as the
    current instant is before the first instant of that December;
    whereas every month number from 13 to 99 is refused at all
    times. *)
Theorem expiry_month_zero (tza now yy : Z) :
  Z.abs tza <= msPerDay -> 0 <= yy <= 99 ->
  (effectsAccepts (expiryDate tza now) (mmyy 0 yy) = true
   <-> now < monthStart tza (2000 + yy - 1) 12)
  /\ (forall m, 13 <= m <= 99 ->
        effectsAccepts (expiryDate tza now) (mmyy m yy) = false).
Proof.
  intros Ht Hy. split.
  - rewrite accepts_mmyy, TimeClip_monthStart, monthStart_zero by lia.
    cbn [gt]. replace (0 <=? 12) with true by reflexivity.
    rewrite andb_true_r. apply Z.ltb_lt.
  - intros m Hm. rewrite accepts_mmyy by lia.
    rewrite (proj2 (Z.leb_gt m 12)) by lia. apply andb_false_r.
Qed.

(** On 2 November 2026, noon UTC, the value 00/27 is accepted. *)
Lemma expiry_month_zero_witness :
  effectsAccepts (expiryDate 0 1793620800000) "00/27" = true
  /\ effectsAccepts (expiryDate 0 1793620800000) "13/27" = false.
Proof.
  destruct (expiry_month_zero 0 1793620800000 27) as [H0 H13];
    [unfold msPerDay; lia | lia |].
  split.
  - apply H0. vm_compute. reflexivity.
  - apply (H13 13). lia.
Defined.

(** X7.  The expiry rule only gets stricter with time: a value accepted
    at some instant is accepted at every earlier instant, so a value
    refused once is refused ever after. *)
Theorem expiry_antitone (tza now earlier : Z) (val : string) :
  earlier <= now ->
  effectsAccepts (expiryDate tza now) val = true ->
  effectsAccepts (expiryDate tza earlier) val = true.
Proof.
  intros Hle. rewrite !accepts_expiryDate.
  destruct (negb _ && isMMYY val); [| discriminate]. cbn [andb].
  unfold expiryInFuture.
  destruct (leNumber _ 12); [| now rewrite !andb_false_r].
  rewrite !andb_true_r.
  destruct (newDate tza _ _) as [t|]; [| discriminate]. cbn [gt].
  rewrite !Z.ltb_lt. lia.
Qed.

Lemma expiry_antitone_witness :
  effectsAccepts (expiryDate 0 1577836800000) "12/26" = true.
Proof.
  apply (expiry_antitone 0 1793620800000 1577836800000 "12/26"); [lia |].
  vm_compute. reflexivity.
Defined.

End RulesMore.

(** ** The amount *)

Module AmountFacts.
Import JsString JsNumber JsFloat Zod ValidationSchema AmountRule StringFacts.

#[local] Arguments isDigit : simpl never.

(** *** Digits at the head of a string *)

Lemma append_nil_r s : s +:+ EmptyString = s.
Proof. apply chars_inj. now rewrite chars_app, app_nil_r. Qed.

Lemma append_assoc a b c : (a +:+ b) +:+ c = a +:+ b +:+ c.
Proof. apply chars_inj. now rewrite !chars_app, app_assoc. Qed.

Lemma spanDigits_app w r :
  allDigits w = true -> headIsDigit r = false -> spanDigits (w +:+ r) = (w, r).
Proof.
  intros Hw Hr. induction w as [|c w IH].
  - change (EmptyString +:+ r) with r. destruct r as [|c r]; [reflexivity |].
    cbn in Hr |- *. now rewrite Hr.
  - cbn [allDigits] in Hw. apply andb_true_iff in Hw as [Hc Hw].
    change (String c w +:+ r) with (String c (w +:+ r)).
    cbn [spanDigits]. now rewrite Hc, IH.
Qed.

Lemma spanDigits_all w : allDigits w = true -> spanDigits w = (w, EmptyString).
Proof.
  intros Hw. rewrite <- (append_nil_r w) at 1. now apply spanDigits_app.
Qed.

Lemma spanDigits_spec s :
  s = fst (spanDigits s) +:+ snd (spanDigits s)
  /\ allDigits (fst (spanDigits s)) = true
  /\ headIsDigit (snd (spanDigits s)) = false.
Proof.
  induction s as [|c s (IH1 & IH2 & IH3)]; [now cbn |].
  cbn [spanDigits]. destruct (isDigit c) eqn:Hc.
  - destruct (spanDigits s) as [d r]. cbn [fst snd] in *.
    split; [change (String c d +:+ r) with (String c (d +:+ r)); now rewrite <- IH1 |].
    split; [cbn [allDigits]; now rewrite Hc | exact IH3].
  - cbn. now rewrite Hc.
Qed.

Lemma allDigits_app a b : allDigits (a +:+ b) = allDigits a && allDigits b.
Proof.
  induction a as [|c a IH]; [reflexivity |].
  change (String c a +:+ b) with (String c (a +:+ b)).
  cbn [allDigits]. now rewrite IH, andb_assoc.
Qed.

(** *** Values of digits *)

Lemma digitValue_digit c :
  isDigit c = true ->
  exists k, digitValue c = Some k /\ 0 <= k < 10
            /\ (0 <? k) = negb (Ascii.eqb c "0").
Proof.
  intros H. exists (Z.of_N (N_of_ascii c) - 48).
  destruct c as [[] [] [] [] [] [] [] []]; cbn in H; try discriminate H;
    (split; [reflexivity | split; [cbn; lia | reflexivity]]).
Qed.

Lemma readDigits_positive d : forall a,
  allDigits d = true -> 0 <= a ->
  exists v, readDigits 10 (Some a) d = Some v /\ 0 <= v
            /\ (0 <? v) = ((0 <? a) || hasNonZeroDigit d).
Proof.
  induction d as [|c d IH]; intros a Hd Ha.
  - exists a. cbn. now rewrite orb_false_r.
  - cbn [allDigits] in Hd. apply andb_true_iff in Hd as [Hc Hd].
    destruct (digitValue_digit c Hc) as (k & Hk & Hrange & Hpos).
    cbn [readDigits]. rewrite Hk.
    rewrite (proj2 (Z.ltb_lt k 10)) by lia. cbn [default from_option id].
    destruct (IH (a * 10 + k) Hd ltac:(lia)) as (v & Hv & Hv0 & Hvpos).
    exists v. split; [exact Hv |]. split; [exact Hv0 |].
    rewrite Hvpos. cbn [hasNonZeroDigit]. rewrite Hc, <- Hpos. cbn [andb].
    rewrite orb_assoc. f_equal.
    destruct (Z.ltb_spec 0 a), (Z.ltb_spec 0 k), (Z.ltb_spec 0 (a * 10 + k));
      cbn; reflexivity || lia.
Qed.

Lemma decimalValue_positive d :
  allDigits d = true ->
  0 <= decimalValue d /\ (0 <? decimalValue d) = hasNonZeroDigit d.
Proof.
  intros Hd. unfold decimalValue.
  destruct d as [|c d]; [cbn; split; [lia | reflexivity] |].
  cbn [allDigits] in Hd. apply andb_true_iff in Hd as [Hc Hd].
  destruct (digitValue_digit c Hc) as (k & Hk & Hrange & Hpos).
  cbn [readDigits]. rewrite Hk, (proj2 (Z.ltb_lt k 10)) by lia.
  cbn [default from_option id].
  destruct (readDigits_positive d (0 * 10 + k) Hd ltac:(lia)) as (v & Hv & Hv0 & Hvpos).
  rewrite Hv. cbn [default from_option id]. split; [exact Hv0 |].
  rewrite Hvpos. cbn [hasNonZeroDigit]. rewrite Hc, <- Hpos. cbn [andb].
  now replace (0 * 10 + k) with k by lia.
Qed.

Lemma hasNonZeroDigit_app a b :
  hasNonZeroDigit (a +:+ b) = hasNonZeroDigit a || hasNonZeroDigit b.
Proof.
  induction a as [|c a IH]; [reflexivity |].
  change (String c a +:+ b) with (String c (a +:+ b)).
  cbn [hasNonZeroDigit]. now rewrite IH, orb_assoc.
Qed.

(** *** [parseFloat] on an amount *)

Lemma digit_head c s :
  isDigit c = true ->
  trimStart (String c s) = String c s
  /\ signOf (String c s) = (false, String c s)
  /\ String.prefix "Infinity" (String c s) = false.
Proof.
  intros H.
  destruct c as [[] [] [] [] [] [] [] []]; cbn in H; try discriminate H;
    repeat split.
Qed.

(** The two shapes of a value that has the format of an amount. *)
Lemma isAmount_shape val :
  isAmount val = true <->
  exists w, allDigits w = true /\ w <> EmptyString
            /\ (val = w
                \/ exists f, allDigits f = true
                             /\ (String.length f = 1 \/ String.length f = 2)%nat
                             /\ val = w +:+ "." +:+ f).
Proof.
  unfold isAmount. split.
  - destruct (spanDigits_spec val) as (Hval & Hw & _).
    destruct (spanDigits val) as [w r]. cbn [fst snd] in *.
    intros H. apply andb_true_iff in H as [Hne Hr].
    exists w. split; [exact Hw |].
    split; [intros ->; discriminate Hne |].
    destruct r as [|c f]; [left; now rewrite Hval, append_nil_r |].
    destruct c as [[] [] [] [] [] [] [] []]; try discriminate Hr.
    apply andb_true_iff in Hr as [Hf Hlen]. right. exists f.
    split; [exact Hf |]. split; [| exact Hval].
    apply orb_true_iff in Hlen as [H1|H2]; [left | right]; now apply Nat.eqb_eq.
  - intros (w & Hw & Hne & [-> | (f & Hf & Hlen & ->)]).
    + rewrite spanDigits_all by exact Hw. destruct w; [congruence | reflexivity].
    + rewrite spanDigits_app by (exact Hw || reflexivity).
      destruct w; [congruence |]. cbn [String.eqb negb andb].
      change ("." +:+ f) with (String "."%char f). cbn beta iota.
      rewrite Hf. destruct Hlen as [-> | ->]; reflexivity.
Qed.

Lemma two_pow_1075 : 100 < 2 ^ 1075.
Proof. reflexivity. Qed.

Lemma isPositive_small_exponent m e :
  0 <= m -> -2 <= e <= 0 -> isPositive (Decimal false m e) = (0 <? m).
Proof.
  intros Hm He. cbn [isPositive negb andb].
  destruct (Z.leb_spec 0 e) as [H0|H0]; [reflexivity |].
  pose proof two_pow_1075 as Hbig. revert Hbig. generalize (2 ^ 1075). intros P HP.
  assert (10 ^ (- e) <= 100) as H10.
  { assert (e = -1 \/ e = -2) as [-> | ->] by lia; cbn; lia. }
  destruct (Z.ltb_spec 0 m) as [Hpos|Hzero].
  - apply Z.ltb_lt. nia.
  - apply Z.ltb_ge. assert (m = 0) as -> by lia.
    assert (0 < 10 ^ (- e)) by (apply Z.pow_pos_nonneg; lia). lia.
Qed.

Lemma parseFloat_amount val :
  isAmount val = true -> isPositive (parseFloat val) = hasNonZeroDigit val.
Proof.
  intros H. apply isAmount_shape in H as (w & Hw & Hne & [-> | (f & Hf & Hlen & ->)]).
  - destruct w as [|c w]; [congruence |].
    pose proof Hw as Hc. cbn [allDigits] in Hc. apply andb_true_iff in Hc as [Hc _].
    destruct (digit_head c w Hc) as (Htrim & Hsign & Hinf).
    unfold parseFloat. rewrite Htrim, Hsign, Hinf, (spanDigits_all _ Hw).
    cbn beta iota. rewrite append_nil_r.
    destruct (decimalValue_positive _ Hw) as [H0 Hpos].
    cbn [exponentPart String.length Z.of_nat].
    rewrite isPositive_small_exponent by lia. exact Hpos.
  - destruct w as [|c w]; [congruence |].
    pose proof Hw as Hc. cbn [allDigits] in Hc. apply andb_true_iff in Hc as [Hc _].
    change (String c w +:+ "." +:+ f) with (String c (w +:+ "." +:+ f)).
    destruct (digit_head c (w +:+ "." +:+ f) Hc) as (Htrim & Hsign & Hinf).
    unfold parseFloat. rewrite Htrim, Hsign, Hinf.
    change (String c (w +:+ "." +:+ f)) with (String c w +:+ String "."%char f).
    rewrite (spanDigits_app (String c w) (String "."%char f) Hw eq_refl). cbn beta iota.
    rewrite (spanDigits_all _ Hf).
    assert (allDigits (String c w +:+ f) = true) as Hwf
      by (rewrite allDigits_app, Hw, Hf; reflexivity).
    destruct (decimalValue_positive _ Hwf) as [H0 Hpos].
    cbn [exponentPart].
    rewrite isPositive_small_exponent by lia.
    rewrite Hpos, !hasNonZeroDigit_app. cbn [hasNonZeroDigit isDigit].
    reflexivity.
Qed.

Lemma accepts_amount val :
  effectsAccepts amount val
  = negb (Z.of_nat (String.length val) <? 1) && isAmount val
    && isPositive (parseFloat val).
Proof.
  unfold effectsAccepts, effectsIssues, stringIssues, amount.
  cbn [refine regex min z_string checks schema refinement refinementMessage
       app flat_map runCheck].
  destruct (Z.of_nat (String.length val) <? 1), (isAmount val),
    (isPositive (parseFloat val)); reflexivity.
Qed.

(** X8.  The amount rule accepts exactly the values made of digits,
    with at most a point followed by one or two digits, in which some
    digit is not zero; so a value with a sign such as -5, a value with
    three decimals and the amounts 0 and 0.00 are refused. *)
Theorem amount_accepts_iff (val : string) :
  effectsAccepts amount val = true
  <-> isAmount val = true /\ hasNonZeroDigit val = true.
Proof.
  rewrite accepts_amount. split.
  - intros H. apply andb_true_iff in H as [H Hpos].
    apply andb_true_iff in H as [_ Hfmt].
    split; [exact Hfmt |]. now rewrite <- parseFloat_amount.
  - intros [Hfmt Hnz]. rewrite Hfmt, parseFloat_amount, Hnz by exact Hfmt.
    destruct val as [|c val]; [discriminate Hfmt |].
    now rewrite (proj2 (Z.ltb_ge (Z.of_nat (String.length (String c val))) 1))
      by (cbn [String.length]; lia).
Qed.

Example amount_examples :
  map (effectsAccepts amount) ["50.00"; "0.01"; "7"; "-5"; "0"; "0.00"; "1.234"; "12."; ".5"; ""]
  = [true; true; true; false; false; false; false; false; false; false].
Proof. vm_compute. reflexivity. Qed.

End AmountFacts.

(** ** The inputs of the payment form *)

Module FormFacts.
Import JsString JsFloat Zod ValidationSchema AmountRule PaymentForm
  StringFacts FormatterFacts AmountFacts.

#[local] Arguments isDigit : simpl never.

Abbreviation digitOrDot c := (isDigit c%char = true \/ c%char = "."%char).

Lemma keepDigitsAndDots_chars s : Forall (fun c => digitOrDot c) (chars (keepDigitsAndDots s)).
Proof.
  induction s as [|c s IH]; cbn [keepDigitsAndDots]; [constructor |].
  destruct (isDigit c) eqn:Hd; cbn [orb].
  - cbn. constructor; [now left | exact IH].
  - destruct (Ascii.eqb_spec c ".") as [->|_]; [| exact IH].
    cbn. constructor; [now right | exact IH].
Qed.

Lemma keepDigitsAndDots_id s :
  Forall (fun c => digitOrDot c) (chars s) -> keepDigitsAndDots s = s.
Proof.
  induction s as [|c s IH]; [reflexivity |].
  cbn [list_ascii_of_string keepDigitsAndDots]. intros H.
  apply Forall_cons in H as [Hc Hs]. rewrite (IH Hs).
  destruct Hc as [-> | ->]; reflexivity.
Qed.

Lemma digit_not_dot c : isDigit c = true -> Ascii.eqb c "." = false.
Proof.
  destruct c as [[] [] [] [] [] [] [] []]; cbn; intros H;
    first [reflexivity | discriminate H].
Qed.

(** *** [split(".")] *)

Lemma split_nonempty sep s : split sep s <> [].
Proof.
  destruct s as [|c s]; cbn [split]; [discriminate |].
  destruct (Ascii.eqb c sep); [discriminate |].
  destruct (split sep s); discriminate.
Qed.

Lemma split_digits w : allDigits w = true -> split "." w = [w].
Proof.
  induction w as [|c w IH]; [reflexivity |].
  cbn [allDigits]. intros H. apply andb_true_iff in H as [Hc Hw].
  cbn [split]. now rewrite (digit_not_dot c Hc), (IH Hw).
Qed.

Lemma split_digits_dot w t :
  allDigits w = true -> split "." (w +:+ String "."%char t) = w :: split "." t.
Proof.
  induction w as [|c w IH]; [reflexivity |].
  cbn [allDigits]. intros H. apply andb_true_iff in H as [Hc Hw].
  change (String c w +:+ String "."%char t) with (String c (w +:+ String "."%char t)).
  cbn [split]. now rewrite (digit_not_dot c Hc), (IH Hw).
Qed.

Lemma join_cons_nonempty p q rest :
  join "" (p :: q :: rest) = p +:+ join "" (q :: rest).
Proof. reflexivity. Qed.

(** Putting the parts together again drops the points. *)
Lemma join_split t :
  Forall (fun c => digitOrDot c) (chars t) ->
  join "" (split "." t) = replaceNonDigits t.
Proof.
  induction t as [|c t IH]; [reflexivity |].
  cbn [list_ascii_of_string]. intros H. apply Forall_cons in H as [Hc Ht].
  specialize (IH Ht). cbn [split replaceNonDigits].
  pose proof (split_nonempty "." t) as Hne.
  destruct Hc as [Hd | ->].
  - rewrite Hd, (digit_not_dot c Hd).
    destruct (split "." t) as [|first others]; [congruence |].
    rewrite <- IH. destruct others; reflexivity.
  - replace (isDigit ".") with false by reflexivity. cbn [Ascii.eqb Bool.eqb].
    destruct (split "." t) as [|first others]; [congruence |].
    rewrite join_cons_nonempty. exact IH.
Qed.

(** *** What [handleAmountChange] sets *)

(** The digits before the first point, then, if there is a point, a
    point and the first two of the digits after it. *)
Lemma handleAmountChange_spec value :
  handleAmountChange value
  = match snd (spanDigits (keepDigitsAndDots value)) with
    | EmptyString => keepDigitsAndDots value
    | String _ t =>
        fst (spanDigits (keepDigitsAndDots value))
        +:+ "." +:+ slice (replaceNonDigits t) 0 (Some 2)
    end.
Proof.
  unfold handleAmountChange.
  pose proof (keepDigitsAndDots_chars value) as Hs.
  destruct (spanDigits_spec (keepDigitsAndDots value)) as (Hval & Hw & Hr).
  destruct (spanDigits (keepDigitsAndDots value)) as [w r]. cbn [fst snd] in *.
  rewrite Hval in Hs |- *. clear Hval.
  destruct r as [|c t].
  - rewrite append_nil_r, split_digits by exact Hw. reflexivity.
  - rewrite chars_app in Hs. apply Forall_app in Hs as [_ Hs].
    cbn [list_ascii_of_string] in Hs. apply Forall_cons in Hs as [Hc Ht].
    cbn [headIsDigit] in Hr. destruct Hc as [Hc | ->]; [congruence |].
    rewrite split_digits_dot by exact Hw.
    pose proof (split_nonempty "." t) as Hne.
    pose proof (join_split t Ht) as Hj.
    destruct (split "." t) as [|p [|q rest]]; [congruence | |].
    + cbn [length Nat.eqb part lookup list_lookup default from_option id].
      now rewrite <- Hj.
    + cbn [length Nat.eqb part lookup list_lookup default from_option id skipn].
      now rewrite <- Hj.
Qed.

Lemma slice2_digits t :
  allDigits (slice (replaceNonDigits t) 0 (Some 2)) = true
  /\ (String.length (slice (replaceNonDigits t) 0%Z (Some 2%Z)) <= 2)%nat.
Proof.
  split.
  - apply RulesMore.allDigits_Forall. rewrite chars_slice_prefix by lia.
    apply Forall_take. rewrite chars_replaceNonDigits. apply Forall_filter_digit.
  - rewrite <- length_chars, chars_slice_prefix, length_take by lia. lia.
Qed.

Lemma handleAmountChange_shape_of value :
  exists whole decimals,
    allDigits whole = true /\ allDigits decimals = true
    /\ (String.length decimals <= 2)%nat
    /\ (handleAmountChange value = whole
        \/ handleAmountChange value = whole +:+ "." +:+ decimals).
Proof.
  rewrite handleAmountChange_spec.
  destruct (spanDigits_spec (keepDigitsAndDots value)) as (Hval & Hw & Hr).
  destruct (spanDigits (keepDigitsAndDots value)) as [w r]. cbn [fst snd] in *.
  destruct r as [|c t].
  - exists w, EmptyString. rewrite append_nil_r in Hval. repeat split; auto.
  - destruct (slice2_digits t) as [Hd Hlen].
    exists w, (slice (replaceNonDigits t) 0 (Some 2)). repeat split; auto.
Qed.

(** X9.  The amount the form holds after an input is made of digits,
    with at most one point, and at most two digits after the point:
    signs, letters and further points are dropped, further decimals
    cut off. *)
Theorem handleAmountChange_shape (value : string) :
  exists whole decimals,
    allDigits whole = true /\ allDigits decimals = true
    /\ (String.length decimals <= 2)%nat
    /\ (handleAmountChange value = whole
        \/ handleAmountChange value = whole +:+ "." +:+ decimals).
Proof.
  rewrite handleAmountChange_spec.
  destruct (spanDigits_spec (keepDigitsAndDots value)) as (Hval & Hw & Hr).
  destruct (spanDigits (keepDigitsAndDots value)) as [w r]. cbn [fst snd] in *.
  destruct r as [|c t].
  - exists w, EmptyString. rewrite append_nil_r in Hval.
    repeat split; auto.
  - destruct (slice2_digits t) as [Hd Hlen].
    exists w, (slice (replaceNonDigits t) 0 (Some 2)). repeat split; auto.
Qed.

Lemma slice2_short d :
  (String.length d <= 2)%nat -> slice d 0 (Some 2) = d.
Proof.
  intros H. apply chars_inj. rewrite chars_slice_prefix by lia.
  apply take_ge. rewrite length_chars. lia.
Qed.

Lemma replaceNonDigits_digits d : allDigits d = true -> replaceNonDigits d = d.
Proof.
  intros H. apply chars_inj. rewrite chars_replaceNonDigits.
  now apply filter_all_id, RulesMore.allDigits_Forall.
Qed.

Lemma digits_digitOrDot d :
  allDigits d = true -> Forall (fun c => digitOrDot c) (chars d).
Proof.
  intros H. apply RulesMore.allDigits_Forall in H.
  eapply Forall_impl; [exact H | intros c Hc; now left].
Qed.

(** A value of that shape is set as it is. *)
Lemma handleAmountChange_fixed whole decimals :
  allDigits whole = true -> allDigits decimals = true ->
  (String.length decimals <= 2)%nat ->
  handleAmountChange whole = whole
  /\ handleAmountChange (whole +:+ "." +:+ decimals) = whole +:+ "." +:+ decimals.
Proof.
  intros Hw Hd Hlen. rewrite !handleAmountChange_spec. split.
  - rewrite keepDigitsAndDots_id by now apply digits_digitOrDot.
    now rewrite spanDigits_all.
  - rewrite keepDigitsAndDots_id.
    + change ("." +:+ decimals) with (String "."%char decimals).
      rewrite (spanDigits_app whole (String "."%char decimals) Hw eq_refl).
      cbn [fst snd]. now rewrite replaceNonDigits_digits, slice2_short.
    + rewrite chars_app. apply Forall_app. split; [now apply digits_digitOrDot |].
      change ("." +:+ decimals) with (String "."%char decimals).
      cbn [list_ascii_of_string]. constructor; [now right | now apply digits_digitOrDot].
Qed.

Lemma handleAmountChange_twice value :
  handleAmountChange (handleAmountChange value) = handleAmountChange value.
Proof.
  rewrite (handleAmountChange_spec value).
  destruct (spanDigits_spec (keepDigitsAndDots value)) as (Hval & Hw & Hr).
  destruct (spanDigits (keepDigitsAndDots value)) as [w r]. cbn [fst snd] in *.
  destruct r as [|c t].
  - rewrite append_nil_r in Hval. rewrite Hval.
    destruct (handleAmountChange_fixed w EmptyString Hw eq_refl) as [H _];
      [cbn; lia | exact H].
  - destruct (slice2_digits t) as [Hd Hlen].
    destruct (handleAmountChange_fixed w _ Hw Hd Hlen) as [_ H]. exact H.
Qed.

(** X10.  Setting the amount is idempotent: an amount the form holds
    is set again unchanged. *)
Theorem handleAmountChange_idempotent (value : string) :
  handleAmountChange (handleAmountChange value) = handleAmountChange value.
Proof.
  destruct (handleAmountChange_shape_of value) as (w & d & Hw & Hd & Hlen & [-> | ->]);
    destruct (handleAmountChange_fixed w d Hw Hd Hlen) as [H1 H2]; assumption.
Qed.

(** X11.  An input that already has the format of an amount (digits,
    at most a point and one or two digits) is kept as typed. *)
Theorem handleAmountChange_keeps_amounts (value : string) :
  isAmount value = true -> handleAmountChange value = value.
Proof.
  intros H. apply isAmount_shape in H as (w & Hw & _ & [-> | (f & Hf & Hlen & ->)]).
  - destruct (handleAmountChange_fixed w EmptyString Hw eq_refl) as [H _];
      [cbn; lia | exact H].
  - destruct (handleAmountChange_fixed w f Hw Hf) as [_ H]; [lia | exact H].
Qed.

Lemma handleAmountChange_keeps_amounts_witness :
  handleAmountChange "50.00" = "50.00".
Proof. apply (handleAmountChange_keeps_amounts "50.00"). reflexivity. Defined.

Example handleAmountChange_examples :
  map handleAmountChange ["12.345"; "1.2.3.4"; "-5"; "1,000.50"; "abc"; "."; "12."; ".5"]
  = ["12.34"; "1.23"; "5"; "1000.50"; ""; "."; "12."; ".5"].
Proof. vm_compute. reflexivity. Qed.

(** *** The form as a whole *)

Lemma handleChange_formatted e form : formatted form -> formatted (handleChange e form).
Proof.
  intros (Ha & Hc & He & Hv & Hnone).
  destruct e as [value|value|value|value]; cbn [handleChange]; unfold setValue;
    (repeat split;
     [ intros v Hl | intros v Hl | intros v Hl | intros v Hl | intros field Hf ]);
    try (apply lookup_insert_Some in Hl as [[Hk <-] | [Hk Hl]];
         first [ discriminate Hk
               | apply handleAmountChange_twice
               | apply FormatterMore.formatCardNumber_twice
               | apply FormatterMore.formatExpiryDate_twice
               | apply FormatterMore.formatCVV_twice
               | auto ]);
    try (rewrite lookup_insert_ne; [now apply Hnone | intros <-; apply Hf; cbn; auto]).
Qed.

Lemma fold_formatted events : forall form,
  formatted form -> formatted (fold_left (fun form e => handleChange e form) events form).
Proof.
  induction events as [|e events IH]; intros form H; [exact H |].
  cbn [fold_left]. apply IH. now apply handleChange_formatted.
Qed.

(** X12.  Whatever is typed into the four inputs, in whatever order,
    every value the form holds is in formatted shape: each one is a
    value its own handler sets again unchanged, so the amount holds
    digits and at most one point and the other three hold what their
    formatters return; and the handlers set no other field. *)
Theorem form_stays_formatted (events : list ChangeEvent) :
  (forall v, typed events !! "amount" = Some v ->
     handleAmountChange v = v
     /\ Forall (fun c => isDigit c = true \/ c = "."%char) (chars v))
  /\ (forall v, typed events !! "cardNumber" = Some v ->
        Formatters.formatCardNumber v = v)
  /\ (forall v, typed events !! "expiryDate" = Some v ->
        Formatters.formatExpiryDate v = v)
  /\ (forall v, typed events !! "cvv" = Some v -> Formatters.formatCVV v = v)
  /\ (forall field, ~ In field ["amount"; "cardNumber"; "expiryDate"; "cvv"] ->
        typed events !! field = None).
Proof.
  assert (formatted (typed events)) as (Ha & Hc & He & Hv & Hnone).
  { apply fold_formatted. repeat split; intros; try discriminate. }
  repeat split; auto.
  apply Ha in H. rewrite <- H, handleAmountChange_spec.
  pose proof (keepDigitsAndDots_chars v) as Hs.
  destruct (spanDigits_spec (keepDigitsAndDots v)) as (Hval & Hw & _).
  destruct (spanDigits (keepDigitsAndDots v)) as [w r]. cbn [fst snd] in *.
  destruct r as [|c t]; [exact Hs |].
  rewrite !chars_app. apply Forall_app. split; [now apply digits_digitOrDot |].
  apply Forall_app. split; [repeat constructor; now right |].
  apply digits_digitOrDot, slice2_digits.
Qed.

(** After typing -5 as amount and a card number. *)
Lemma form_stays_formatted_witness :
  typed [amountChange "-5"; cardNumberChange "4242424242424242"] !! "amount" = Some "5"
  /\ handleAmountChange "5" = "5".
Proof.
  assert (typed [amountChange "-5"; cardNumberChange "4242424242424242"] !! "amount"
          = Some "5") as H by (vm_compute; reflexivity).
  split; [exact H |].
  apply (form_stays_formatted [amountChange "-5"; cardNumberChange "4242424242424242"]).
  exact H.
Defined.

End FormFacts.

(** ** The payment endpoint, continued *)

Module PaymentMore.
Import JsString Zod Next ProcessPayment StringFacts PaymentFacts.

(** *** What the schema hands on *)

Lemma parseShape_out shape props k v :
  snd (parseShape shape props) !! k = Some v ->
  exists t, In (k, t) shape /\ parseType t [k] (props !! k) = inr v.
Proof.
  induction shape as [|[key t] rest IH]; cbn [parseShape].
  - cbn. rewrite lookup_empty. discriminate.
  - destruct (parseShape rest props) as [issues out]. cbn [snd] in IH.
    destruct (parseType t [key] (props !! key)) as [here|w] eqn:E; cbn [snd].
    + intros H. destruct (IH H) as (t' & Hin & Hp). exists t'. split; [now right | exact Hp].
    + intros H. apply lookup_insert_Some in H as [[<- <-] | [_ H]].
      * exists t. split; [now left | exact E].
      * destruct (IH H) as (t' & Hin & Hp). exists t'. split; [now right | exact Hp].
Qed.

Lemma parseShape_out_none shape props k :
  ~ In k (keys shape) -> snd (parseShape shape props) !! k = None.
Proof.
  induction shape as [|[key t] rest IH]; cbn [parseShape keys map fst]; intros Hk.
  - apply lookup_empty.
  - destruct (parseShape rest props) as [issues out]. cbn [snd] in IH.
    assert (snd (issues, out) !! k = None) as Hrest by (apply IH; intros H; apply Hk; now right).
    destruct (parseType t [key] (props !! key)); cbn [snd] in *; [exact Hrest |].
    rewrite lookup_insert_ne; [exact Hrest | intros <-; apply Hk; now left].
Qed.

(** The parse of a shape reads the properties of the shape only. *)
Lemma parseShape_ext shape props props' :
  (forall k, In k (keys shape) -> props !! k = props' !! k) ->
  parseShape shape props = parseShape shape props'.
Proof.
  induction shape as [|[key t] rest IH]; intros H; [reflexivity |].
  cbn [parseShape]. rewrite IH by (intros k Hk; apply H; now right).
  rewrite (H key) by now left. reflexivity.
Qed.

Lemma schema_field_type k t :
  In (k, t) paymentRequestSchema ->
  In k stringFields /\ t = ZString z_string
  \/ k = "accountType" /\ t = ZEnum ["ELECTRICITY"; "GAS"].
Proof.
  unfold paymentRequestSchema, stringFields. cbn [In].
  intros [H|[H|[H|[H|[H|[H|[]]]]]]]; injection H as <- <-; cbn; auto 10.
Qed.

(** The validated data repeat the six properties of the body. *)
Lemma validated_lookup props out k v :
  parse paymentRequestSchema (JObject props) = inr out ->
  out !! k = Some v <-> In k (keys paymentRequestSchema) /\ props !! k = Some (JString v).
Proof.
  intros Hp.
  assert (out = snd (parseShape paymentRequestSchema props)) as ->.
  { unfold parse in Hp. destruct (parseShape _ _) as [[|i l] o]; [| discriminate].
    now injection Hp as <-. }
  split.
  - intros H. apply parseShape_out in H as (t & Hin & Ht).
    split; [apply (in_map fst _ (k, t)), Hin |].
    destruct (props !! k) as [[| | |w| |]|];
      destruct (schema_field_type k t Hin) as [[_ ->] | [_ ->]]; try discriminate Ht.
    + now injection Ht as ->.
    + cbn [parseType] in Ht. destruct (inValues _ w); [now injection Ht as -> | discriminate].
  - intros [Hk Hv].
    destruct (snd (parseShape paymentRequestSchema props) !! k) as [w|] eqn:E.
    + apply parseShape_out in E as (t & Hin & Ht). rewrite Hv in Ht.
      destruct (schema_field_type k t Hin) as [[_ ->] | [_ ->]].
      * now injection Ht as ->.
      * cbn [parseType] in Ht. destruct (inValues _ v); [now injection Ht as -> | discriminate].
    + exfalso. apply in_map_iff in Hk as ([k' t] & <- & Hin). cbn [fst] in *.
      destruct (parse_object_lookup _ _ _ k' t Hp Hin) as [w Hw]. congruence.
Qed.

(** [s.slice(-4)]: the last four characters, or all when there are
    fewer. *)
Lemma chars_slice_last4 s :
  chars (slice s (-4) None) = skipn (length (chars s) - 4) (chars s).
Proof.
  unfold slice. cbv beta iota delta [default from_option id].
  rewrite chars_take, chars_drop, <- length_chars.
  replace (-4 <? 0) with true by reflexivity.
  rewrite (proj2 (Z.ltb_ge (Z.of_nat (length (chars s))) 0)) by lia.
  replace (Z.to_nat (Z.max (Z.of_nat (length (chars s)) + -4) 0))
    with (length (chars s) - 4)%nat by lia.
  apply take_ge. rewrite length_drop. lia.
Qed.

(** X13.  A well-typed body is logged once, with the card number
    replaced by four stars and its last four characters (all of them
    when it has four or fewer), the CVV replaced by three stars, the
    amount, expiry date, account id and account type as sent, and
    nothing else: properties of the body outside the schema do not
    reach the console. *)
Theorem POST_logs_masked (props : gmap string JsonValue) (card : string) :
  wellTyped props ->
  props !! "cardNumber" = Some (JString card) ->
  exists shown,
    fst (POST_io (requestOf props))
    = [ console_log "Processing payment..." None;
        console_log "Payment data validated:" (Some shown) ]
    /\ shown !! "cardNumber" = Some ("****" +:+ slice card (-4) None)
    /\ chars (slice card (-4) None) = skipn (length (chars card) - 4) (chars card)
    /\ shown !! "cvv" = Some "***"
    /\ (forall k, In k ["amount"; "expiryDate"; "accountId"; "accountType"] ->
          forall v, shown !! k = Some v <-> props !! k = Some (JString v))
    /\ (forall k, ~ In k (keys paymentRequestSchema) -> shown !! k = None).
Proof.
  intros Hwt Hcard. apply schema_accepts_wellTyped in Hwt as [out Hout].
  assert (out !! "cardNumber" = Some card) as Hc.
  { apply (validated_lookup props out _ _ Hout). split; [cbn; auto |]. exact Hcard. }
  exists (<["cvv" := "***"]> (<["cardNumber" := "****" +:+ slice card (-4) None]> out)).
  split.
  { unfold POST_io, tryBlock. cbn [requestOf json]. now rewrite Hout, Hc. }
  split; [now rewrite lookup_insert_ne, lookup_insert_eq |].
  split; [apply chars_slice_last4 |].
  split; [apply lookup_insert_eq |].
  split.
  - intros k Hk v.
    rewrite !lookup_insert_ne
      by (intros <-; cbn in Hk; intuition discriminate).
    rewrite (validated_lookup props out k v Hout).
    split; [now intros [_ H] | intros H; split; [| exact H]].
    cbn in Hk |- *. intuition auto.
  - intros k Hk.
    rewrite !lookup_insert_ne by (intros <-; apply Hk; cbn; auto 10).
    destruct (out !! k) as [v|] eqn:E; [| reflexivity].
    apply (validated_lookup props out k v Hout) in E as [Hin _]. contradiction.
Qed.

Lemma POST_logs_masked_witness :
  exists shown,
    fst (POST_io (requestOf (bodyWithAmount "50.00")))
    = [ console_log "Processing payment..." None;
        console_log "Payment data validated:" (Some shown) ]
    /\ shown !! "cardNumber" = Some "****4242"
    /\ shown !! "cvv" = Some "***".
Proof.
  destruct (POST_logs_masked (bodyWithAmount "50.00") "4242424242424242")
    as (shown & Hlog & Hcard & _ & Hcvv & _).
  - apply POST_wellTyped. vm_compute. reflexivity.
  - vm_compute. reflexivity.
  - exists shown. split; [exact Hlog |]. split; [exact Hcard | exact Hcvv].
Defined.

(** X14.  Properties of the body outside the schema are ignored:
    adding, changing or removing one changes neither the response nor
    the console output. *)
Theorem POST_ignores_unknown_properties
  (props : gmap string JsonValue) (k : string) (v : JsonValue) :
  ~ In k (keys paymentRequestSchema) ->
  POST_io (requestOf (<[k := v]> props)) = POST_io (requestOf props)
  /\ POST_io (requestOf (delete k props)) = POST_io (requestOf props).
Proof.
  intros Hk.
  assert (forall props', (forall j, In j (keys paymentRequestSchema) -> props' !! j = props !! j) ->
                         POST_io (requestOf props') = POST_io (requestOf props)) as H.
  { intros props' Hext. unfold POST_io, tryBlock, parse. cbn [requestOf json].
    now rewrite (parseShape_ext _ props' props Hext). }
  split; apply H; intros j Hj.
  - apply lookup_insert_ne. intros <-. contradiction.
  - apply lookup_delete_ne. intros <-. contradiction.
Qed.

Lemma POST_ignores_unknown_properties_witness :
  POST_io (requestOf (<["note" := JString "hello"]> (bodyWithAmount "50.00")))
  = POST_io (requestOf (bodyWithAmount "50.00")).
Proof.
  apply (POST_ignores_unknown_properties (bodyWithAmount "50.00") "note" (JString "hello")).
  cbn. intuition discriminate.
Defined.

(** *** The errors of a response *)

Lemma schema_field_single props entry :
  In entry paymentRequestSchema ->
  fieldIssues props entry = []
  \/ exists issue, fieldIssues props entry = [issue] /\ path issue = [fst entry].
Proof.
  intros Hin. destruct entry as [k t]. unfold fieldIssues. cbn [fst snd].
  destruct (schema_field_type k t Hin) as [[_ ->] | [_ ->]]; cbn [parseType];
    destruct (props !! k) as [[| | |w| |]|];
      try (right; eexists; split; reflexivity); try (now left).
  destruct (inValues ["ELECTRICITY"; "GAS"] w);
    [now left | right; eexists; split; reflexivity].
Qed.

Lemma paths_sublist props shape :
  (forall entry, In entry shape ->
     fieldIssues props entry = []
     \/ exists issue, fieldIssues props entry = [issue] /\ path issue = [fst entry]) ->
  sublist (map path (flat_map (fieldIssues props) shape))
          (map (fun key => [key]) (keys shape)).
Proof.
  induction shape as [|entry rest IH]; intros H; [constructor |].
  cbn [flat_map keys map]. specialize (IH (fun e He => H e (or_intror He))).
  destruct (H entry (or_introl eq_refl)) as [-> | (issue & -> & Hp)]; cbn [app map].
  - now apply sublist_cons.
  - rewrite Hp. now apply sublist_skip.
Qed.

(** X15.  The errors of a status 400 name each faulty property once:
    for a body that is an object there is at least one entry, at most
    one per property of the schema, in the order of the schema; for a
    body that is not an object (null, a number, a string, an array)
    there is exactly one entry, with an empty path. *)
Theorem POST_errors_per_property :
  (forall props issues,
      errors (body (POST (requestOf props))) = Some issues ->
      issues <> []
      /\ sublist (map path issues)
           [["amount"]; ["cardNumber"]; ["expiryDate"]; ["cvv"];
            ["accountId"]; ["accountType"]])
  /\ (forall b, (forall props, b <> JObject props) ->
      exists issue,
        POST {| json := inr b |} = invalid400 [issue] /\ path issue = []).
Proof.
  split.
  - intros props issues H. apply POST_errors in H as (b & [= <-] & Hp).
    apply parse_object_issues in Hp as [<- Hne]. split; [exact Hne |].
    rewrite parseShape_issues.
    apply (paths_sublist props paymentRequestSchema).
    intros entry. apply schema_field_single.
  - intros b Hb. exists (invalidType "object" (Some b) []).
    split; [| reflexivity].
    pose proof (POST_cases {| json := inr b |}) as H. cbn [json] in H.
    destruct b; try exact H. now contradiction (Hb props).
Qed.

Lemma POST_errors_per_property_witness :
  exists issue, POST {| json := inr JNull |} = invalid400 [issue] /\ path issue = [].
Proof.
  apply POST_errors_per_property. intros props. discriminate.
Defined.

End PaymentMore.

(** ** Submitting the payment form *)

Module SubmitFacts.
Import Zod Next ProcessPayment PaymentForm PaymentFacts.

Lemma submittedBody_wellTyped data accountId accountType :
  wellTyped (submittedBody data accountId accountType).
Proof.
  unfold wellTyped, isStringField, submittedBody.
  repeat split;
    try (eexists; repeat (rewrite lookup_insert_ne by discriminate);
         apply lookup_insert_eq).
  destruct accountType; [left | right]; apply lookup_insert_eq.
Qed.

(** X16.  However the request ends (no network, an unreadable
    response, a response with any status), the handler lowers
    [isProcessing] last, dismisses the loading toast exactly once, and
    either closes the overlay with no error set, or sets an error and
    leaves the overlay open: never both. *)
Theorem handlePaymentSubmit_always_settles
  (server : Request -> FetchOutcome) (accountId : string) (accountType : UtilityType)
  (data : PaymentFormData) (o : Overlay) :
  let trace := handlePaymentSubmit server accountId accountType data in
  isProcessing (run trace o) = false
  /\ last trace = Some (setIsProcessing false)
  /\ length (List.filter isDismiss trace) = 1%nat
  /\ ((In onClose trace /\ closed (run trace o) = true
       /\ paymentError (run trace o) = None)
      \/ (~ In onClose trace /\ closed (run trace o) = closed o
          /\ exists m, paymentError (run trace o) = Some m /\ In (toast_error m) trace)).
Proof.
  cbv zeta. unfold handlePaymentSubmit.
  destruct (afterFetch _) as [m|effects] eqn:E.
  - repeat split; try reflexivity. right.
    split; [cbn; intuition discriminate |]. split; [reflexivity |].
    exists m. split; [reflexivity | cbn; auto 10].
  - assert (effects = [ toast_dismiss "payment-processing";
                        toast_success "Payment successful! 🎉"; onClose ]) as ->.
    { unfold afterFetch in E. destruct (server _) as [e|st e|r]; try discriminate E.
      destruct (negb _); [discriminate E | now injection E as <-]. }
    repeat split; try reflexivity. left. repeat split. cbn. auto 10.
Qed.


(** X18.  Against the route of this repository the client never sees
    a refusal: whatever the four values of the form are, the body sent
    has the six properties with the types of the schema, the route
    answers 200, and the handler closes the overlay with a success
    toast and no error. *)
Theorem handlePaymentSubmit_route_accepts
  (accountId : string) (accountType : UtilityType) (data : PaymentFormData) (o : Overlay) :
  POST (requestOf (submittedBody data accountId accountType)) = ok200
  /\ handlePaymentSubmit route accountId accountType data
     = [ setIsProcessing true; setPaymentError None;
         toast_loading "Processing payment..." "payment-processing";
         toast_dismiss "payment-processing";
         toast_success "Payment successful! 🎉";
         onClose;
         setIsProcessing false ]
  /\ run (handlePaymentSubmit route accountId accountType data) o
     = {| isProcessing := false; paymentError := None; closed := true |}.
Proof.
  assert (POST (requestOf (submittedBody data accountId accountType)) = ok200) as H
    by apply POST_wellTyped, submittedBody_wellTyped.
  split; [exact H |].
  unfold handlePaymentSubmit, route. rewrite H. split; reflexivity.
Qed.

Example submit_rejected_by_a_stricter_server :
  let server := fun _ => responded (invalid400 []) in
  run (handlePaymentSubmit server "A-0001" GAS
         {| amount := "-5"; cardNumber := ""; expiryDate := ""; cvv := "" |})
      {| isProcessing := false; paymentError := None; closed := false |}
  = {| isProcessing := false; paymentError := Some "Invalid payment data"; closed := false |}.
Proof. reflexivity. Qed.

End SubmitFacts.

(** ** The dashboard *)

Module HomeFacts.
Import Page Home AccountFacts.

(** *** The two views *)

Lemma UtilityType_eqb_neq a b : UtilityType_eqb a b = false <-> a <> b.
Proof. destruct a, b; cbn; split; congruence. Qed.

(** X19.  The ELECTRICITY view and the GAS view split the list: every
    account is in exactly one of them, so the two views together hold
    the accounts of the list, each as often as the list does. *)
Theorem views_partition (L : list Account) :
  Permutation L (getFilteredAccounts L (Only ELECTRICITY) ++ getFilteredAccounts L (Only GAS))
  /\ (length (getFilteredAccounts L (Only ELECTRICITY))
      + length (getFilteredAccounts L (Only GAS)) = length L)%nat
  /\ (forall a, In a L ->
        (In a (getFilteredAccounts L (Only ELECTRICITY))
         /\ ~ In a (getFilteredAccounts L (Only GAS)))
        \/ (In a (getFilteredAccounts L (Only GAS))
            /\ ~ In a (getFilteredAccounts L (Only ELECTRICITY)))).
Proof.
  unfold getFilteredAccounts. cbn [strictEq].
  assert (Permutation L
            (List.filter (fun account => UtilityType_eqb (type account) ELECTRICITY) L
             ++ List.filter (fun account => UtilityType_eqb (type account) GAS) L)) as HP.
  { induction L as [|a L IH]; [constructor |].
    cbn [List.filter]. destruct (type a); cbn [UtilityType_eqb app].
    - now constructor.
    - now apply Permutation_cons_app. }
  split; [exact HP |]. split.
  - apply Permutation_length in HP. rewrite length_app in HP. lia.
  - intros a Ha. rewrite !List.filter_In.
    destruct (type a); cbn [UtilityType_eqb]; [left | right];
      (split; [now split | intros [_ H]; discriminate H]).
Qed.

(** X20.  Filtering what is already filtered: with the same tag
    nothing changes, with ALL nothing changes, and with the other
    utility nothing is left. *)
Theorem getFilteredAccounts_twice (L : list Account) (T : AccountType) (t u : UtilityType) :
  getFilteredAccounts (getFilteredAccounts L T) T = getFilteredAccounts L T
  /\ getFilteredAccounts (getFilteredAccounts L T) ALL = getFilteredAccounts L T
  /\ (t <> u -> getFilteredAccounts (getFilteredAccounts L (Only t)) (Only u) = []).
Proof.
  split; [| split].
  - unfold getFilteredAccounts. induction L as [|a L IH]; [reflexivity |].
    cbn [List.filter].
    destruct (match T with ALL => true | _ => strictEq (type a) T end) eqn:E;
      [| exact IH].
    cbn [List.filter]. now rewrite E, IH.
  - apply filter_true.
  - intros Hne. unfold getFilteredAccounts. cbn [strictEq].
    induction L as [|a L IH]; [reflexivity |].
    cbn [List.filter]. destruct (UtilityType_eqb (type a) t) eqn:E; [| exact IH].
    cbn [List.filter]. apply UtilityType_eqb_eq in E. subst t.
    now rewrite (proj2 (UtilityType_eqb_neq (type a) u) Hne).
Qed.

Lemma getFilteredAccounts_twice_witness :
  let a := {| id := "A-0001"; type := ELECTRICITY; address := "1 Greville Ct"; balance := 30 |} in
  getFilteredAccounts (getFilteredAccounts [a] (Only ELECTRICITY)) (Only GAS) = [].
Proof.
  intros a. apply (getFilteredAccounts_twice [a] ALL ELECTRICITY GAS). discriminate.
Defined.

(** *** The page as a state machine *)

Lemma cards_in_accounts s a : In a (cards s) -> In a (accounts s).
Proof.
  unfold cards. destruct (loading s); [intros [] |].
  unfold getFilteredAccounts. rewrite List.filter_In. now intros [H _].
Qed.

(** X21.  In every state the page can reach: while it is loading
    there are no accounts, no cards and no overlay; the account the
    overlay is open for is one of the accounts fetched; and the cards
    shown are accounts fetched, of the selected type. *)
Theorem page_invariant (s : State) :
  reachable s ->
  (loading s = true -> accounts s = [] /\ selectedAccount s = None /\ cards s = [])
  /\ (forall a, selectedAccount s = Some a -> In a (accounts s))
  /\ (forall a, In a (cards s) ->
        In a (accounts s)
        /\ (forall t, selectedType s = Only t -> type a = t)).
Proof.
  intros Hr.
  assert ((loading s = true -> accounts s = [] /\ selectedAccount s = None)
          /\ (forall a, selectedAccount s = Some a -> In a (accounts s))) as [Hload Hsel].
  { induction Hr as [|s s' Hr [IHload IHsel] Hstep].
    - split; [now split | discriminate].
    - destruct Hstep as [s result Hl | s t | s account Hin | s Hopen]; cbn.
      + destruct (IHload Hl) as [Hacc Hnone]. split; [discriminate |].
        intros a Ha. congruence.
      + split; assumption.
      + split.
        * intros Hl. unfold cards in Hin. rewrite Hl in Hin. destruct Hin.
        * intros a [= <-]. now apply cards_in_accounts.
      + split; [intros Hl; split; [now apply IHload | reflexivity] | discriminate]. }
  split; [| split; [exact Hsel |]].
  - intros Hl. destruct (Hload Hl) as [Ha Hs]. repeat split; auto.
    unfold cards. now rewrite Hl.
  - intros a Ha. split; [now apply cards_in_accounts |].
    intros t Ht. unfold cards in Ha. destruct (loading s); [destruct Ha |].
    rewrite Ht in Ha. unfold getFilteredAccounts in Ha. cbn [strictEq] in Ha.
    apply List.filter_In in Ha as [_ Ha]. now apply UtilityType_eqb_eq.
Qed.

Lemma page_invariant_witness :
  let a := {| id := "A-0002"; type := GAS; address := "74 Taltarni Rd"; balance := 0 |} in
  let s := handleOpenPayment a (handleTypeFilter (Only GAS) (fetchAccounts (Some [a]) initial)) in
  reachable s /\ In a (accounts s).
Proof.
  intros a s.
  assert (reachable s) as Hr.
  { unfold s. eapply reachable_step; [eapply reachable_step; [eapply reachable_step |] |].
    - apply reachable_initial.
    - apply step_fetch. reflexivity.
    - apply step_filter.
    - apply step_open. cbn. now left. }
  split; [exact Hr |].
  destruct (page_invariant s Hr) as (_ & Hsel & _). apply Hsel. reflexivity.
Defined.


End HomeFacts.
